(** * FaceTracker: the frame pipeline, the recording controller and the
      recording library of [src/app/components/FaceTracker.tsx]

    The component is embedded function by function.  React state hooks and
    refs become record fields that are passed explicitly; every callback of
    the source is a function of its own, named after the handler it embeds;
    the browser (canvas contexts, IndexedDB, localStorage, media elements) is
    the part of the state those callbacks act on. *)

From Stdlib Require Import ZArith QArith Qminmax Ascii String DecimalString List Lia.
From stdpp Require Import base list gmap.
Import ListNotations.

Local Open Scope string_scope.
Local Open Scope list_scope.
Local Open Scope Z_scope.

(** ** JavaScript values *)

(** A JavaScript string is a sequence of UTF-16 code units. *)
Abbreviation jsstring := (list N).

(** The code units of an ASCII literal of the source. *)
Definition str (s : string) : jsstring :=
  List.map N_of_ascii (list_ascii_of_string s).

(** The arithmetic of the JavaScript [number] type, as far as the component
    uses it.  The development is generic in the interpretation of the
    operators: whatever holds below holds for IEEE-754 doubles as well as for
    the exact rationals used to run the definitions. *)
Class JSNumber (R : Type) := {
  num_of_Z : Z -> R;          (* integer literals, [unsigned long] attributes *)
  num_mul : R -> R -> R;      (* a * b *)
  num_sub : R -> R -> R;      (* a - b *)
  num_div : R -> R -> R;      (* a / b *)
  num_min : R -> R -> R       (* Math.min(a, b) *)
}.

#[export] Instance Q_JSNumber : JSNumber Q := {
  num_of_Z := inject_Z;
  num_mul := Qmult;
  num_sub := Qminus;
  num_div := Qdiv;
  num_min := Qmin
}.

(** ** Promises and blobs *)

(** The state of a promise: settled once, later settlements are ignored. *)
Inductive Promise (A : Type) :=
| Pending
| Resolved (value : A)
| Rejected (reason : string).
Arguments Pending {A}.
Arguments Resolved {A}.
Arguments Rejected {A}.

Definition resolve {A} (v : A) (p : Promise A) : Promise A :=
  match p with Pending => Resolved v | _ => p end.

Definition reject {A} (e : string) (p : Promise A) : Promise A :=
  match p with Pending => Rejected e | _ => p end.

(** A [Blob]: its bytes and its MIME type. *)
Record Blob := {
  blob_bytes : list N;
  blob_type : string
}.

Definition blob_size (b : Blob) : Z := Z.of_nat (length (blob_bytes b)).

(** [new Blob(parts, { type })] *)
Definition new_Blob (parts : list Blob) (type : string) : Blob :=
  {| blob_bytes := List.concat (List.map blob_bytes parts); blob_type := type |}.

(** ** Detection results (interfaces [Detection], [DetectionResult]) *)

Record BoundingBox (R : Type) := {
  xCenter : R;
  yCenter : R;
  width : R;
  height : R
}.
Arguments xCenter {R}.
Arguments yCenter {R}.
Arguments width {R}.
Arguments height {R}.

Module Landmark.
Record t (R : Type) := { x : R; y : R }.
Arguments x {R}.
Arguments y {R}.
End Landmark.

Record Detection (R : Type) := {
  boundingBox : option (BoundingBox R);
  landmarks : option (list (Landmark.t R))
}.
Arguments boundingBox {R}.
Arguments landmarks {R}.

Record DetectionResult (R : Type) := {
  detections : list (Detection R)
}.
Arguments detections {R}.

(** ** Drawing surfaces *)

(** What a media element plays. *)
Inductive MediaSource :=
| NoSource
| CameraStream
| ObjectURL (blob : Blob).

(** An [HTMLVideoElement].  [duration] is [None] while it is NaN, that is
    until the metadata of the source is known; [seeking] is set while a
    seek started by an assignment to [currentTime] is under way. *)
Record Video (R : Type) := {
  src : MediaSource;
  videoWidth : Z;
  videoHeight : Z;
  duration : option R;
  currentTime : R;
  seeking : bool
}.
Arguments src {R}.
Arguments videoWidth {R}.
Arguments videoHeight {R}.
Arguments duration {R}.
Arguments currentTime {R}.
Arguments seeking {R}.

(** The calls the component issues on a [CanvasRenderingContext2D].  The
    style that is in force when a shape is drawn ([strokeStyle], [lineWidth],
    [fillStyle], each assigned right before the call) is carried by the call.
    [drawImage] records the element it paints as it is at the time of the
    call, so the frame painted is the one at that [currentTime]. *)
Inductive DrawCall (R : Type) :=
| clearRect (x y w h : R)
| drawImage (image : Video R) (dx dy dw dh : R)
| strokeRect (strokeStyle : string) (lineWidth : R) (x y w h : R)
| fillRect (fillStyle : string) (x y w h : R).
Arguments clearRect {R}.
Arguments drawImage {R}.
Arguments strokeRect {R}.
Arguments fillRect {R}.

Definition is_strokeRect {R} (c : DrawCall R) : bool :=
  match c with strokeRect _ _ _ _ _ _ => true | _ => false end.

Definition is_fillRect {R} (c : DrawCall R) : bool :=
  match c with fillRect _ _ _ _ _ => true | _ => false end.

Definition count_calls {R} (p : DrawCall R -> bool) (cs : list (DrawCall R)) : nat :=
  length (List.filter p cs).

Definition is_clearRect {R} (c : DrawCall R) : bool :=
  match c with clearRect _ _ _ _ => true | _ => false end.

Definition is_drawImage {R} (c : DrawCall R) : bool :=
  match c with drawImage _ _ _ _ _ => true | _ => false end.

(** An [HTMLCanvasElement]: its size attributes and its 2d context, which is
    [None] when [getContext('2d')] yields null and otherwise the calls issued
    on it so far, oldest first. *)
Record Canvas (R : Type) := {
  canvas_width : Z;
  canvas_height : Z;
  context2d : option (list (DrawCall R))
}.
Arguments canvas_width {R}.
Arguments canvas_height {R}.
Arguments context2d {R}.

(** ** Overlay compositor ([onResults], [drawFaceTracking]) *)

Module Compositor.
Section Compositor.
Context {R : Type} `{JSNumber R}.

(** What [onResults] reads and writes: three refs (null before mount and
    after teardown) and the [faceDetected] hook. *)
Record State := {
  canvasRef : option (Canvas R);
  compositeCanvasRef : option (Canvas R);
  videoRef : option (Video R);
  faceDetected : bool
}.

(** The body of [results.detections.forEach] for one detection. *)
Definition drawDetection (canvasWidth canvasHeight : R)
    (context : list (DrawCall R)) (detection : Detection R) : list (DrawCall R) :=
  let context :=
    match boundingBox detection with
    | Some bbox =>
        context ++ [strokeRect "#00ff00" (num_of_Z 3)
          (num_sub (num_mul (xCenter bbox) canvasWidth)
                   (num_div (num_mul (width bbox) canvasWidth) (num_of_Z 2)))
          (num_sub (num_mul (yCenter bbox) canvasHeight)
                   (num_div (num_mul (height bbox) canvasHeight) (num_of_Z 2)))
          (num_mul (width bbox) canvasWidth)
          (num_mul (height bbox) canvasHeight)]
    | None => context
    end in
  match landmarks detection with
  | Some lms =>
      fold_left (fun context landmark =>
        context ++ [fillRect "#ff0000"
          (num_sub (num_mul (Landmark.x landmark) canvasWidth) (num_of_Z 2))
          (num_sub (num_mul (Landmark.y landmark) canvasHeight) (num_of_Z 2))
          (num_of_Z 4) (num_of_Z 4)]) lms context
  | None => context
  end.

Definition drawFaceTracking (results : DetectionResult R)
    (context : list (DrawCall R)) (canvasWidth canvasHeight : R) : list (DrawCall R) :=
  fold_left (drawDetection canvasWidth canvasHeight) (detections results) context.

Definition onResults (results : DetectionResult R) (s : State) : State :=
  match canvasRef s, compositeCanvasRef s, videoRef s with
  | Some canvas, Some compositeCanvas, Some video =>
    match context2d canvas, context2d compositeCanvas with
    | Some ctx, Some compositeCtx =>
      (* Set canvas sizes to match video *)
      let canvas :=
        {| canvas_width := videoWidth video; canvas_height := videoHeight video;
           context2d := context2d canvas |} in
      let compositeCanvas :=
        {| canvas_width := videoWidth video; canvas_height := videoHeight video;
           context2d := context2d compositeCanvas |} in
      (* Clear overlay canvas *)
      let ctx := ctx ++
        [clearRect (num_of_Z 0) (num_of_Z 0)
           (num_of_Z (canvas_width canvas)) (num_of_Z (canvas_height canvas))] in
      (* Draw video frame on composite canvas *)
      let compositeCtx := compositeCtx ++
        [drawImage video (num_of_Z 0) (num_of_Z 0)
           (num_of_Z (canvas_width compositeCanvas))
           (num_of_Z (canvas_height compositeCanvas))] in
      (* Check if faces are detected *)
      let hasfaces := 0 <? Z.of_nat (length (detections results)) in
      (* Draw face tracking on both canvases *)
      let ctx :=
        if hasfaces
        then drawFaceTracking results ctx
               (num_of_Z (canvas_width canvas)) (num_of_Z (canvas_height canvas))
        else ctx in
      let compositeCtx :=
        if hasfaces
        then drawFaceTracking results compositeCtx
               (num_of_Z (canvas_width compositeCanvas))
               (num_of_Z (canvas_height compositeCanvas))
        else compositeCtx in
      {| canvasRef :=
           Some {| canvas_width := canvas_width canvas;
                   canvas_height := canvas_height canvas; context2d := Some ctx |};
         compositeCanvasRef :=
           Some {| canvas_width := canvas_width compositeCanvas;
                   canvas_height := canvas_height compositeCanvas;
                   context2d := Some compositeCtx |};
         videoRef := Some video;
         faceDetected := hasfaces |}
    | _, _ => s
    end
  | _, _, _ => s
  end.

(** The surfaces are mounted: both canvases and the video exist and both
    canvases hand out a 2d context. *)
Definition mounted (s : State) (ctx compositeCtx : list (DrawCall R)) (video : Video R) : Prop :=
  exists canvas compositeCanvas,
    canvasRef s = Some canvas /\ compositeCanvasRef s = Some compositeCanvas /\
    videoRef s = Some video /\
    context2d canvas = Some ctx /\ context2d compositeCanvas = Some compositeCtx.

(** The calls on the overlay context and on the composite context. *)
Definition overlayCalls (s : State) : list (DrawCall R) :=
  match canvasRef s with
  | Some canvas => default [] (context2d canvas)
  | None => []
  end.

Definition compositeCalls (s : State) : list (DrawCall R) :=
  match compositeCanvasRef s with
  | Some canvas => default [] (context2d canvas)
  | None => []
  end.

(** *** The drawing, as the specification words it *)

(** Normalised box to pixels: top-left is centre times surface size minus
    half the scaled size, dimensions are size times surface size. *)
Definition rect_of_bbox (surfaceWidth surfaceHeight : R) (bbox : BoundingBox R) : DrawCall R :=
  let w := num_mul (width bbox) surfaceWidth in
  let h := num_mul (height bbox) surfaceHeight in
  strokeRect "#00ff00" (num_of_Z 3)
    (num_sub (num_mul (xCenter bbox) surfaceWidth) (num_div w (num_of_Z 2)))
    (num_sub (num_mul (yCenter bbox) surfaceHeight) (num_div h (num_of_Z 2)))
    w h.

(** A 4 by 4 square centred on the landmark. *)
Definition square_of_landmark (surfaceWidth surfaceHeight : R) (p : Landmark.t R) : DrawCall R :=
  fillRect "#ff0000"
    (num_sub (num_mul (Landmark.x p) surfaceWidth) (num_of_Z 2))
    (num_sub (num_mul (Landmark.y p) surfaceHeight) (num_of_Z 2))
    (num_of_Z 4) (num_of_Z 4).

Definition shapes_of_detection (surfaceWidth surfaceHeight : R) (d : Detection R)
    : list (DrawCall R) :=
  List.map (rect_of_bbox surfaceWidth surfaceHeight) (option_list (boundingBox d)) ++
  List.map (square_of_landmark surfaceWidth surfaceHeight) (default [] (landmarks d)).

Definition shapes_of_result (surfaceWidth surfaceHeight : R) (results : DetectionResult R)
    : list (DrawCall R) :=
  flat_map (shapes_of_detection surfaceWidth surfaceHeight) (detections results).

(** Detections that carry a bounding box, and the landmarks of all
    detections together. *)
Definition boxCount (results : DetectionResult R) : nat :=
  length (List.filter (fun d => bool_decide (is_Some (boundingBox d))) (detections results)).

Definition landmarkCount (results : DetectionResult R) : nat :=
  list_sum (List.map (fun d => length (default [] (landmarks d))) (detections results)).

End Compositor.
Arguments State R : clear implicits.
End Compositor.

(** ** Detection adapter start-up ([initializeFaceDetection]) *)

Module Init.

Record FaceDetection := {
  baseUrl : jsstring;          (* locateFile: `${baseUrl}/${file}` *)
  model : string;
  minDetectionConfidence : Q
}.

(** Hooks and refs the function writes, and the console lines
    "Trying to load MediaPipe from: ..." it prints, oldest first. *)
Record State := {
  error : option string;
  isLoading : bool;
  faceDetectionRef : option FaceDetection;
  tried : list jsstring
}.

Definition cdnUrls : list jsstring :=
  [ str "https://cdn.jsdelivr.net/npm/@mediapipe/face_detection@0.4.1646425229";
    str "https://cdn.jsdelivr.net/npm/@mediapipe/face_detection@0.4";
    str "https://cdn.jsdelivr.net/npm/@mediapipe/face_detection" ].

(** [new FaceDetection({ locateFile })] followed by [setOptions]. *)
Definition newFaceDetection (baseUrl : jsstring) : FaceDetection :=
  {| baseUrl := baseUrl; model := "short"; minDetectionConfidence := 1 # 2 |}.

Section Init.
(** What happens when the capability is constructed, configured and
    initialised from a location: [None] when [initialize()] resolves,
    [Some e] when any of the steps throws [e]. *)
Variable load : jsstring -> option string.

(** The [for (const baseUrl of cdnUrls)] loop, on the locals
    [faceDetection], [lastError] and the console. *)
Fixpoint tryEach (urls : list jsstring)
    (faceDetection : option FaceDetection) (lastError : option string)
    (console : list jsstring)
    : option FaceDetection * option string * list jsstring :=
  match urls with
  | [] => (faceDetection, lastError, console)
  | baseUrl :: rest =>
      let console := console ++ [baseUrl] in
      let faceDetection := newFaceDetection baseUrl in
      match load baseUrl with
      | None => (Some faceDetection, lastError, console)       (* break *)
      | Some err => tryEach rest None (Some err) console        (* catch *)
      end
  end.

Definition initializeFaceDetection (s : State) : State :=
  let s := {| error := None; isLoading := true;
              faceDetectionRef := faceDetectionRef s; tried := tried s |} in
  match tryEach cdnUrls None None (tried s) with
  | (Some faceDetection, _, console) =>
      {| error := error s; isLoading := false;
         faceDetectionRef := Some faceDetection; tried := console |}
  | (None, _, console) =>
      (* throw lastError || new Error('All CDN sources failed'), caught below *)
      {| error := Some "Failed to initialize face detection. Please check your internet connection and refresh the page.";
         isLoading := false;
         faceDetectionRef := faceDetectionRef s; tried := console |}
  end.
End Init.

End Init.

(** ** Recording controller ([startRecording], [stopRecording]) *)

Module Recorder.

(** The stream captured from the composite canvas. *)
Record MediaStream := {
  frameRate : Z;
  hasAudioTrack : bool
}.

Inductive RecordingState := inactive | recording.

Record MediaRecorder := {
  stream : MediaStream;
  mimeType : string;
  state : RecordingState
}.

(** The hooks and refs of the recording lifecycle.  An interval is known
    by the handle [setInterval] returned. *)
Record State := {
  isRecording : bool;
  recordingDuration : Z;
  error : option string;
  compositeStreamRef : option MediaStream;
  mediaRecorderRef : option MediaRecorder;
  recordedChunksRef : list Blob;
  recordingIntervalRef : option Z
}.

Definition setError (e : option string) (s : State) : State :=
  {| isRecording := isRecording s; recordingDuration := recordingDuration s;
     error := e; compositeStreamRef := compositeStreamRef s;
     mediaRecorderRef := mediaRecorderRef s;
     recordedChunksRef := recordedChunksRef s;
     recordingIntervalRef := recordingIntervalRef s |}.

Section Recorder.
(** The browser: which MIME types [new MediaRecorder] accepts, whether
    [start()] succeeds on a stream, and the handle the next
    [setInterval] returns. *)
Variable isTypeSupported : string -> bool.
Variable canStart : MediaStream -> bool.
Variable nextInterval : Z.

Definition startRecording (s : State) : State :=
  match compositeStreamRef s with
  | None =>
      setError (Some "Composite stream not ready. Please wait for camera initialization.") s
  | Some compositeStream =>
      if negb (isTypeSupported "video/webm;codecs=vp9") then
        (* new MediaRecorder throws *)
        setError (Some "Failed to start recording") s
      else
        let mediaRecorder :=
          {| stream := compositeStream; mimeType := "video/webm;codecs=vp9";
             state := inactive |} in
        if negb (canStart compositeStream) then
          (* mediaRecorder.start() throws *)
          {| isRecording := isRecording s; recordingDuration := recordingDuration s;
             error := Some "Failed to start recording";
             compositeStreamRef := compositeStreamRef s;
             mediaRecorderRef := Some mediaRecorder;
             recordedChunksRef := [];
             recordingIntervalRef := recordingIntervalRef s |}
        else
          {| isRecording := true; recordingDuration := 0;
             error := error s;
             compositeStreamRef := compositeStreamRef s;
             mediaRecorderRef :=
               Some {| stream := compositeStream; mimeType := "video/webm;codecs=vp9";
                       state := recording |};
             recordedChunksRef := [];
             recordingIntervalRef := Some nextInterval |}
  end.
End Recorder.

(** [mediaRecorder.ondataavailable] *)
Definition ondataavailable (data : Blob) (s : State) : State :=
  if 0 <? blob_size data then
    {| isRecording := isRecording s; recordingDuration := recordingDuration s;
       error := error s; compositeStreamRef := compositeStreamRef s;
       mediaRecorderRef := mediaRecorderRef s;
       recordedChunksRef := recordedChunksRef s ++ [data];
       recordingIntervalRef := recordingIntervalRef s |}
  else s.

(** The interval callback [setRecordingDuration(prev => prev + 1)]. *)
Definition tick (s : State) : State :=
  match recordingIntervalRef s with
  | Some _ =>
      {| isRecording := isRecording s; recordingDuration := recordingDuration s + 1;
         error := error s; compositeStreamRef := compositeStreamRef s;
         mediaRecorderRef := mediaRecorderRef s;
         recordedChunksRef := recordedChunksRef s;
         recordingIntervalRef := recordingIntervalRef s |}
  | None => s
  end.

Definition stopRecording (s : State) : State :=
  match mediaRecorderRef s with
  | Some mediaRecorder =>
      if isRecording s then
        {| isRecording := false; recordingDuration := recordingDuration s;
           error := error s; compositeStreamRef := compositeStreamRef s;
           mediaRecorderRef :=
             Some {| stream := stream mediaRecorder; mimeType := mimeType mediaRecorder;
                     state := inactive |};
           recordedChunksRef := recordedChunksRef s;
           recordingIntervalRef := None |}
      else s
  | None => s
  end.

End Recorder.

(** ** Capture manager ([initializeCamera]) *)

Module Camera.

(** The device stream [getUserMedia] resolves with: the ids of its tracks. *)
Record DeviceStream := {
  videoTracks : list nat;
  audioTracks : list nat
}.

(** The constraints handed to [getUserMedia]. *)
Record Constraints := {
  idealWidth : Z;
  idealHeight : Z;
  facingMode : string;
  audio : bool
}.

(** The [Camera] helper of the capture loop. *)
Record CameraLoop := {
  loop_width : Z;
  loop_height : Z;
  started : bool
}.

(** The refs and the hook the function uses.  [videoRef] is [None] while
    the element is not mounted and otherwise holds its [srcObject];
    [compositeCanvasRef] tells whether the hidden canvas is mounted;
    [requested] lists the calls of [getUserMedia], oldest first. *)
Record State := {
  faceDetectionRef : option Init.FaceDetection;
  videoRef : option (option DeviceStream);
  compositeCanvasRef : bool;
  error : option string;
  streamRef : option DeviceStream;
  compositeStreamRef : option Recorder.MediaStream;
  cameraRef : option CameraLoop;
  requested : list Constraints
}.

(** The browser and the user: [getUserMedia] resolves with a stream or
    rejects, and the element does or does not reach [loadedmetadata]. *)
Record Env := {
  getUserMedia : option DeviceStream;
  metadataLoads : bool
}.

Definition initializeCamera (env : Env) (s : State) : State :=
  match faceDetectionRef s with
  | None => s                       (* waiting for face detection *)
  | Some _ =>
    match videoRef s, compositeCanvasRef s with
    | Some _, true =>
      let constraints :=
        {| idealWidth := 1280; idealHeight := 720; facingMode := "user"; audio := true |} in
      match getUserMedia env with
      | None =>
          {| faceDetectionRef := faceDetectionRef s; videoRef := videoRef s;
             compositeCanvasRef := compositeCanvasRef s;
             error := Some "Failed to access camera. Please ensure camera permissions are granted.";
             streamRef := streamRef s; compositeStreamRef := compositeStreamRef s;
             cameraRef := cameraRef s;
             requested := requested s ++ [constraints] |}
      | Some stream =>
          if metadataLoads env then
            (* captureStream(30), with the first audio track if there is one *)
            let compositeStream :=
              {| Recorder.frameRate := 30;
                 Recorder.hasAudioTrack :=
                   match audioTracks stream with [] => false | _ :: _ => true end |} in
            {| faceDetectionRef := faceDetectionRef s; videoRef := Some (Some stream);
               compositeCanvasRef := compositeCanvasRef s;
               error := None;
               streamRef := Some stream; compositeStreamRef := Some compositeStream;
               cameraRef := Some {| loop_width := 1280; loop_height := 720; started := true |};
               requested := requested s ++ [constraints] |}
          else
            (* the promise waiting for the metadata never resolves *)
            {| faceDetectionRef := faceDetectionRef s; videoRef := Some (Some stream);
               compositeCanvasRef := compositeCanvasRef s;
               error := None;
               streamRef := Some stream; compositeStreamRef := compositeStreamRef s;
               cameraRef := cameraRef s;
               requested := requested s ++ [constraints] |}
      end
    | _, _ => s
    end
  end.

(** The recording controller as it finds the composite stream this part
    has or has not set up. *)
Definition recorder (s : State) : Recorder.State :=
  {| Recorder.isRecording := false; Recorder.recordingDuration := 0;
     Recorder.error := error s;
     Recorder.compositeStreamRef := compositeStreamRef s;
     Recorder.mediaRecorderRef := None; Recorder.recordedChunksRef := [];
     Recorder.recordingIntervalRef := None |}.

End Camera.

(** ** Thumbnail generator ([generateThumbnail]) *)

Module Thumbnail.
Section Thumbnail.
Context {R : Type} `{JSNumber R}.

(** [canvas.toDataURL('image/jpeg', 0.7)]: the encoded still, a function of
    the canvas and of what was drawn on it. *)
Variable toDataURL : Canvas R -> jsstring.

(** The events of the off-screen video element the function listens to.
    [loadedmetadata] comes with the metadata the browser decoded. *)
Inductive MediaEvent :=
| loadedmetadata (duration : R) (videoWidth videoHeight : Z)
| seeked
| error.

(** The locals of one call: the two elements created, the promise returned,
    whether the three listeners were registered, and whether the object URL
    has been revoked. *)
Record State := {
  video : Video R;
  canvas : Canvas R;
  promise : Promise jsstring;
  listening : bool;
  revoked : bool
}.

(** The synchronous part of the executor.  [hasContext] tells whether
    [canvas.getContext('2d')] yields a context. *)
Definition start (hasContext : bool) (blob : Blob) : State :=
  if hasContext then
    {| video := {| src := ObjectURL blob; videoWidth := 0; videoHeight := 0;
                   duration := None; currentTime := num_of_Z 0; seeking := false |};
       canvas := {| canvas_width := 300; canvas_height := 150; context2d := Some [] |};
       promise := Pending; listening := true; revoked := false |}
  else
    {| video := {| src := NoSource; videoWidth := 0; videoHeight := 0;
                   duration := None; currentTime := num_of_Z 0; seeking := false |};
       canvas := {| canvas_width := 300; canvas_height := 150; context2d := None |};
       promise := Rejected "Could not get canvas context";
       listening := false; revoked := false |}.

(** The listener of [loadedmetadata].  With a NaN duration the assignment to
    [currentTime] throws and nothing is assigned. *)
Definition on_loadedmetadata (st : State) : State :=
  let canvas := {| canvas_width := 160; canvas_height := 90;
                   context2d := context2d (canvas st) |} in
  let video :=
    match duration (video st) with
    | Some d =>
        {| src := src (video st); videoWidth := videoWidth (video st);
           videoHeight := videoHeight (video st); duration := duration (video st);
           currentTime := num_min (num_of_Z 1) (num_div d (num_of_Z 2));
           seeking := true |}
    | None => video st
    end in
  {| video := video; canvas := canvas; promise := promise st;
     listening := listening st; revoked := revoked st |}.

(** The listener of [seeked]. *)
Definition on_seeked (st : State) : State :=
  let canvas :=
    {| canvas_width := canvas_width (canvas st); canvas_height := canvas_height (canvas st);
       context2d :=
         option_map (fun ctx => ctx ++
           [drawImage (video st) (num_of_Z 0) (num_of_Z 0)
              (num_of_Z (canvas_width (canvas st))) (num_of_Z (canvas_height (canvas st)))])
           (context2d (canvas st)) |} in
  let thumbnail := toDataURL canvas in
  {| video := video st; canvas := canvas; promise := resolve thumbnail (promise st);
     listening := listening st; revoked := true |}.

(** The listener of [error]. *)
Definition on_error (st : State) : State :=
  {| video := video st; canvas := canvas st;
     promise := reject "Error loading video for thumbnail" (promise st);
     listening := listening st; revoked := revoked st |}.

(** The browser side.  Events reach the listeners only if these were
    registered.  The metadata arrives once and sets [duration] and the native
    size before the listener runs; [seeked] is fired when a seek that is
    under way ends, and clears [seeking] before the listener runs. *)
Definition deliver (st : State) (ev : MediaEvent) : State :=
  if negb (listening st) then st else
  match ev with
  | loadedmetadata d w h =>
      match duration (video st) with
      | None =>
          on_loadedmetadata
            {| video := {| src := src (video st); videoWidth := w; videoHeight := h;
                           duration := Some d; currentTime := currentTime (video st);
                           seeking := seeking (video st) |};
               canvas := canvas st; promise := promise st;
               listening := listening st; revoked := revoked st |}
      | Some _ => st
      end
  | seeked =>
      if seeking (video st) then
        on_seeked
          {| video := {| src := src (video st); videoWidth := videoWidth (video st);
                         videoHeight := videoHeight (video st);
                         duration := duration (video st);
                         currentTime := currentTime (video st); seeking := false |};
             canvas := canvas st; promise := promise st;
             listening := listening st; revoked := revoked st |}
      else st
  | error => on_error st
  end.

Definition run (evs : list MediaEvent) (st : State) : State :=
  fold_left deliver evs st.

(** The promise [generateThumbnail(blob)] returns, as it stands once the
    browser has fired [evs] on the video element. *)
Definition generateThumbnail (hasContext : bool) (evs : list MediaEvent) (blob : Blob)
    : Promise jsstring :=
  promise (run evs (start hasContext blob)).

(** The seek target of the specification: one second, or half the duration
    if that is less. *)
Definition seekTarget (d : R) : R := num_min (num_of_Z 1) (num_div d (num_of_Z 2)).

(** The frames captured so far: the elements painted by [drawImage]. *)
Definition captured (st : State) : list (Video R) :=
  flat_map (fun c => match c with drawImage v _ _ _ _ => [v] | _ => [] end)
           (default [] (context2d (canvas st))).

(** What holds of the locals once the events [evs] have been fired: frames
    are captured only after the metadata has arrived and a [seeked] has
    followed it, every captured frame is the one at the seek target, and the
    promise is resolved only with a frame captured. *)
Definition invariant (blob : Blob) (evs : list MediaEvent) (st : State) : Prop :=
  (listening st = true ->
     is_Some (context2d (canvas st)) /\ src (video st) = ObjectURL blob) /\
  (duration (video st) = None -> captured st = [] /\ seeking (video st) = false) /\
  (forall d, duration (video st) = Some d ->
     currentTime (video st) = seekTarget d /\
     exists w h pre post,
       evs = pre ++ loadedmetadata d w h :: post /\
       (captured st <> [] -> In seeked post) /\
       (forall v, In v (captured st) ->
          currentTime v = seekTarget d /\ seeking v = false /\
          duration v = Some d /\ src v = ObjectURL blob)) /\
  (forall t, promise st = Resolved t -> captured st <> []).

(** The element once the metadata [d], [w], [h] has arrived and it has been
    sent to the seek target, and the 160 by 90 canvas of the thumbnail. *)
Definition sought (blob : Blob) (d : R) (w h : Z) (seeking : bool) : Video R :=
  {| src := ObjectURL blob; videoWidth := w; videoHeight := h; duration := Some d;
     currentTime := seekTarget d; seeking := seeking |}.

Definition thumbnailCanvas (calls : list (DrawCall R)) : Canvas R :=
  {| canvas_width := 160; canvas_height := 90; context2d := Some calls |}.

Definition unresolved (p : Promise jsstring) : Prop := forall t, p <> Resolved t.

(** The four stages of a call: no listeners; waiting for the metadata;
    seeking; captured. *)
Definition phase (blob : Blob) (evs : list MediaEvent) (st : State) : Prop :=
  (listening st = false /\ unresolved (promise st)) \/
  (listening st = true /\ duration (video st) = None /\ seeking (video st) = false /\
   src (video st) = ObjectURL blob /\ context2d (canvas st) = Some [] /\
   unresolved (promise st)) \/
  (exists d w h,
     In (loadedmetadata d w h) evs /\ listening st = true /\
     video st = sought blob d w h true /\ canvas st = thumbnailCanvas [] /\
     unresolved (promise st)) \/
  (exists d w h,
     In (loadedmetadata d w h) evs /\ listening st = true /\
     video st = sought blob d w h false /\
     canvas st = thumbnailCanvas
                   [drawImage (sought blob d w h false) (num_of_Z 0) (num_of_Z 0)
                      (num_of_Z 160) (num_of_Z 90)] /\
     revoked st = true /\
     (promise st = Resolved (toDataURL (canvas st)) \/ exists e, promise st = Rejected e)).

End Thumbnail.
Arguments State R : clear implicits.
Arguments MediaEvent R : clear implicits.
End Thumbnail.

(** ** Recording library ([saveRecording], [loadSavedVideos], [playVideo],
       [downloadVideo], [deleteVideo]) *)

(** Interface [RecordedVideo]: what the list shows of a recording. *)
Module RecordedVideo.
Record t := {
  id : jsstring;
  name : jsstring;
  timestamp : Z;
  duration : Z;
  size : Z;
  thumbnail : option jsstring
}.
End RecordedVideo.

(** The records of the object store 'videos' of 'FaceTrackerDB'. *)
Module VideoRecord.
Record t := {
  id : jsstring;
  name : jsstring;
  timestamp : Z;
  duration : Z;
  size : Z;
  data : Blob
}.
End VideoRecord.

(** [`${n}`] for an integer [n]. *)
Definition decimal (n : Z) : jsstring :=
  str (DecimalString.NilZero.string_of_int (Z.to_int n)).

(** [s.replace(/[^a-zA-Z0-9]/g, replacement)]: the pattern has no [u] flag,
    so it is tried on each code unit. *)
Definition alphanumeric (c : N) : bool :=
  ((97 <=? c) && (c <=? 122) || (65 <=? c) && (c <=? 90) || (48 <=? c) && (c <=? 57))%N.

Definition replace_non_alphanumeric (replacement : jsstring) (s : jsstring) : jsstring :=
  flat_map (fun c => if alphanumeric c then [c] else replacement) s.

(** The [download] attribute [downloadVideo] gives the link. *)
Definition downloadName (videoName : jsstring) : jsstring :=
  replace_non_alphanumeric (str "_") videoName ++ str ".webm".

(** [s.padStart(targetLength, pad)] for a pad string of one code unit. *)
Definition padStart (targetLength : nat) (pad : N) (s : jsstring) : jsstring :=
  repeat pad (targetLength - length s) ++ s.

(** [formatDuration], on the safe integers: the whole numbers of absolute
    value below 2^53, which is what the duration counter and the stored
    records hold.  There the double arithmetic of the source is that of the
    integers: [seconds / 60] is rounded by less than 1/60, so that
    [Math.floor] yields the floor quotient, [seconds % 60] is the exact
    remainder with the sign of [seconds], and a number is printed with all
    its digits.  Beyond them, and on fractions, the source goes on in
    doubles, which this embedding does not follow: the result is [None]. *)
Definition formatDuration (seconds : Z) : option jsstring :=
  if Z.abs seconds <? 2 ^ 53 then
    let mins := seconds / 60 in
    let secs := Z.rem seconds 60 in
    Some (decimal mins ++ str ":" ++ padStart 2 48 (decimal secs))
  else None.

Module Library.

(** What reaches the two stores, in the order it happens. *)
Inductive StorageEvent :=
| idb_open                                   (* indexedDB.open('FaceTrackerDB', 1) *)
| idb_add (record : VideoRecord.t)            (* store.add(videoRecord) *)
| idb_get (id : jsstring)                     (* store.get(videoId) *)
| idb_delete (id : jsstring)                  (* store.delete(videoId) *)
| idb_complete                               (* the transaction has completed *)
| ls_setItem (savedVideos : list RecordedVideo.t).
                                             (* localStorage.setItem('savedVideos', ...) *)

(** A file handed to the download manager: the blob behind the link and the
    [download] attribute. *)
Record Download := {
  href : Blob;
  download : jsstring
}.

(** The hooks and the ref the library functions use, and the browser's two
    stores.  The JSON text under the key 'savedVideos' is represented by the
    list it encodes, [None] when the key is absent; the object store 'videos'
    is keyed by [id].  [selectedVideo] is the object URL of a blob. *)
Record State := {
  error : option string;
  successMessage : option jsstring;
  recordedVideos : list RecordedVideo.t;
  selectedVideo : option Blob;
  recordedChunksRef : list Blob;
  savedVideos : option (list RecordedVideo.t);
  videos : gmap jsstring VideoRecord.t;
  storageLog : list StorageEvent;
  downloads : list Download
}.

Definition setError (e : option string) (s : State) : State :=
  {| error := e; successMessage := successMessage s; recordedVideos := recordedVideos s;
     selectedVideo := selectedVideo s; recordedChunksRef := recordedChunksRef s;
     savedVideos := savedVideos s; videos := videos s; storageLog := storageLog s;
     downloads := downloads s |}.

Definition setSuccessMessage (m : option jsstring) (s : State) : State :=
  {| error := error s; successMessage := m; recordedVideos := recordedVideos s;
     selectedVideo := selectedVideo s; recordedChunksRef := recordedChunksRef s;
     savedVideos := savedVideos s; videos := videos s; storageLog := storageLog s;
     downloads := downloads s |}.

Definition setRecordedVideos (l : list RecordedVideo.t) (s : State) : State :=
  {| error := error s; successMessage := successMessage s; recordedVideos := l;
     selectedVideo := selectedVideo s; recordedChunksRef := recordedChunksRef s;
     savedVideos := savedVideos s; videos := videos s; storageLog := storageLog s;
     downloads := downloads s |}.

Definition setSelectedVideo (u : option Blob) (s : State) : State :=
  {| error := error s; successMessage := successMessage s; recordedVideos := recordedVideos s;
     selectedVideo := u; recordedChunksRef := recordedChunksRef s;
     savedVideos := savedVideos s; videos := videos s; storageLog := storageLog s;
     downloads := downloads s |}.

(** [localStorage.setItem('savedVideos', JSON.stringify(l))] *)
Definition setItem (l : list RecordedVideo.t) (s : State) : State :=
  {| error := error s; successMessage := successMessage s; recordedVideos := recordedVideos s;
     selectedVideo := selectedVideo s; recordedChunksRef := recordedChunksRef s;
     savedVideos := Some l; videos := videos s;
     storageLog := storageLog s ++ [ls_setItem l];
     downloads := downloads s |}.

(** [JSON.parse(localStorage.getItem('savedVideos') || '[]')] *)
Definition getItem (s : State) : list RecordedVideo.t := default [] (savedVideos s).

Definition logged (ev : StorageEvent) (s : State) : State :=
  {| error := error s; successMessage := successMessage s; recordedVideos := recordedVideos s;
     selectedVideo := selectedVideo s; recordedChunksRef := recordedChunksRef s;
     savedVideos := savedVideos s; videos := videos s;
     storageLog := storageLog s ++ [ev];
     downloads := downloads s |}.

(** The object store becomes [m] as a transaction completes. *)
Definition committed (m : gmap jsstring VideoRecord.t) (s : State) : State :=
  {| error := error s; successMessage := successMessage s; recordedVideos := recordedVideos s;
     selectedVideo := selectedVideo s; recordedChunksRef := recordedChunksRef s;
     savedVideos := savedVideos s; videos := m;
     storageLog := storageLog s ++ [idb_complete];
     downloads := downloads s |}.

Definition downloaded (d : Download) (s : State) : State :=
  {| error := error s; successMessage := successMessage s; recordedVideos := recordedVideos s;
     selectedVideo := selectedVideo s; recordedChunksRef := recordedChunksRef s;
     savedVideos := savedVideos s; videos := videos s; storageLog := storageLog s;
     downloads := downloads s ++ [d] |}.

(** How the browser answers.  [indexedDB.open] may throw, or return a
    request that later succeeds or fails; no function of the component
    registers [onerror], so a failed request runs no code.  A request that
    succeeds may do so on a database that has no object store 'videos'
    ([open_without_store]): only [saveRecording] registers
    [onupgradeneeded], so when the database is absent every other function
    creates it, at version 1, without the store, and from then on
    [saveRecording] finds it so as well; [db.transaction(['videos'], ...)]
    then throws inside [onsuccess], where nothing catches it, and the
    handler ends there.  A request inside a transaction succeeds or fails
    likewise; a transaction completes or aborts, and nothing listens for an
    abort. *)
Inductive OpenOutcome := open_success | open_without_store | open_error | open_throws.
Inductive RequestOutcome := request_success | request_error.
Inductive TxOutcome := tx_complete | tx_abort.

(** [store.add] in a read-write transaction: a record under a key that is
    taken fails the request and aborts the transaction. *)
Definition add_record (tx : TxOutcome) (record : VideoRecord.t)
    (m : gmap jsstring VideoRecord.t) : option (gmap jsstring VideoRecord.t) :=
  match tx, m !! VideoRecord.id record with
  | tx_complete, None => Some (<[VideoRecord.id record := record]> m)
  | _, _ => None
  end.

(** [store.delete] in a read-write transaction. *)
Definition delete_record (tx : TxOutcome) (id : jsstring)
    (m : gmap jsstring VideoRecord.t) : option (gmap jsstring VideoRecord.t) :=
  match tx with
  | tx_complete => Some (delete id m)
  | tx_abort => None
  end.

(** [get(id)]: what [store.get(id)] finds, [None] for [undefined]. *)
Definition get (id : jsstring) (s : State) : option VideoRecord.t := videos s !! id.

(** The metadata-only record of the specification: the fields of the stored
    record without the payload, plus the thumbnail. *)
Definition metadata_of (videoRecord : VideoRecord.t) (thumbnail : jsstring) : RecordedVideo.t :=
  {| RecordedVideo.id := VideoRecord.id videoRecord;
     RecordedVideo.name := VideoRecord.name videoRecord;
     RecordedVideo.timestamp := VideoRecord.timestamp videoRecord;
     RecordedVideo.duration := VideoRecord.duration videoRecord;
     RecordedVideo.size := VideoRecord.size videoRecord;
     RecordedVideo.thumbnail := Some thumbnail |}.

Section Library.
(** The promise of [generateThumbnail(blob)] as it ends up. *)
Variable generateThumbnail : Blob -> Promise jsstring.

(** *** saveRecording *)

Record SaveEnv := {
  now_called : Z;              (* Date.now() as saveRecording is entered *)
  now_opened : Z;              (* Date.now() in request.onsuccess *)
  localeString : jsstring;     (* new Date().toLocaleString() in request.onsuccess *)
  save_open : OpenOutcome;
  save_tx : TxOutcome
}.

(** [transaction.oncomplete] of [saveRecording] *)
Definition save_transaction_oncomplete (videoId : jsstring) (videoRecord : VideoRecord.t)
    (thumbnail : jsstring) (s : State) : State :=
  let savedVideos := getItem s in
  let savedVideos := savedVideos ++
    [ {| RecordedVideo.id := videoId;
         RecordedVideo.name := VideoRecord.name videoRecord;
         RecordedVideo.timestamp := VideoRecord.timestamp videoRecord;
         RecordedVideo.duration := VideoRecord.duration videoRecord;
         RecordedVideo.size := VideoRecord.size videoRecord;
         RecordedVideo.thumbnail := Some thumbnail |} ] in
  setRecordedVideos savedVideos (setItem savedVideos s).

(** [request.onsuccess] of [saveRecording], and the transaction it opens *)
Definition save_request_onsuccess (env : SaveEnv) (videoId : jsstring) (blob : Blob)
    (thumbnail : jsstring) (recordingDuration : Z) (s : State) : State :=
  let videoRecord :=
    {| VideoRecord.id := videoId;
       VideoRecord.name := str "Recording_" ++ localeString env;
       VideoRecord.timestamp := now_opened env;
       VideoRecord.duration := recordingDuration;
       VideoRecord.size := blob_size blob;
       VideoRecord.data := blob |} in
  let s := logged (idb_add videoRecord) s in
  match add_record (save_tx env) videoRecord (videos s) with
  | Some m => save_transaction_oncomplete videoId videoRecord thumbnail (committed m s)
  | None => s
  end.

(** [recordingDuration] is the value the closure captured. *)
Definition saveRecording (env : SaveEnv) (recordingDuration : Z) (s : State) : State :=
  match recordedChunksRef s with
  | [] => s
  | _ :: _ =>
      let blob := new_Blob (recordedChunksRef s) "video/webm" in
      let videoId := str "video_" ++ decimal (now_called env) in
      match generateThumbnail blob with
      | Resolved thumbnail =>
          match save_open env with
          | open_success =>
              save_request_onsuccess env videoId blob thumbnail recordingDuration
                (logged idb_open s)
          | open_without_store => logged idb_open s
          | open_error => logged idb_open s
          | open_throws => setError (Some "Failed to save recording") s
          end
      | Rejected _ => setError (Some "Failed to save recording") s
      | Pending => s
      end
  end.

(** *** deleteVideo *)

(** [transaction.oncomplete] of [deleteVideo]; [recordedVideos] is the list
    the closure captured. *)
Definition delete_transaction_oncomplete (videoId : jsstring)
    (recordedVideos : list RecordedVideo.t) (s : State) : State :=
  let savedVideos :=
    List.filter (fun v => bool_decide (RecordedVideo.id v <> videoId)) recordedVideos in
  setRecordedVideos savedVideos (setItem savedVideos s).

Definition delete_request_onsuccess (tx : TxOutcome) (videoId : jsstring)
    (recordedVideos : list RecordedVideo.t) (s : State) : State :=
  let s := logged (idb_delete videoId) s in
  match delete_record tx videoId (videos s) with
  | Some m => delete_transaction_oncomplete videoId recordedVideos (committed m s)
  | None => s
  end.

Definition deleteVideo (open : OpenOutcome) (tx : TxOutcome) (videoId : jsstring)
    (s : State) : State :=
  match open with
  | open_success => delete_request_onsuccess tx videoId (recordedVideos s) (logged idb_open s)
  | open_without_store => logged idb_open s
  | open_error => logged idb_open s
  | open_throws => setError (Some "Failed to delete video") s
  end.

(** *** playVideo *)

(** [getRequest.onsuccess] of [playVideo] *)
Definition play_get_onsuccess (result : option VideoRecord.t) (s : State) : State :=
  match result with
  | Some video => setSelectedVideo (Some (VideoRecord.data video)) s
  | None => s
  end.

Definition playVideo (open : OpenOutcome) (req : RequestOutcome) (videoId : jsstring)
    (s : State) : State :=
  match open with
  | open_success =>
      let s := logged (idb_get videoId) (logged idb_open s) in
      match req with
      | request_success => play_get_onsuccess (get videoId s) s
      | request_error => s
      end
  | open_without_store => logged idb_open s
  | open_error => logged idb_open s
  | open_throws => setError (Some "Failed to load video") s
  end.

(** *** downloadVideo *)

(** [getRequest.onsuccess] of [downloadVideo] *)
Definition download_get_onsuccess (videoName : jsstring) (result : option VideoRecord.t)
    (s : State) : State :=
  match result with
  | Some video =>
      let blob := VideoRecord.data video in
      let s := downloaded {| href := blob; download := downloadName videoName |} s in
      setSuccessMessage (Some (str "Downloaded: " ++ videoName)) s
  | None => s
  end.

Definition downloadVideo (open : OpenOutcome) (req : RequestOutcome)
    (videoId videoName : jsstring) (s : State) : State :=
  match open with
  | open_success =>
      let s := logged (idb_get videoId) (logged idb_open s) in
      match req with
      | request_success => download_get_onsuccess videoName (get videoId s) s
      | request_error => s
      end
  | open_without_store => logged idb_open s
  | open_error => logged idb_open s
  | open_throws => setError (Some "Failed to download video") s
  end.

(** *** loadSavedVideos *)

(** [!video.thumbnail]: absent, or the empty string. *)
Definition needsThumbnail (v : RecordedVideo.t) : bool :=
  match RecordedVideo.thumbnail v with
  | Some (_ :: _) => false
  | _ => true
  end.

(** [savedVideos[index].thumbnail = thumbnail] at the index [findIndex]
    yields for [videoId], nothing when it yields -1. *)
Fixpoint attachThumbnail (videoId thumbnail : jsstring) (savedVideos : list RecordedVideo.t)
    : list RecordedVideo.t :=
  match savedVideos with
  | [] => []
  | v :: rest =>
      if bool_decide (RecordedVideo.id v = videoId) then
        {| RecordedVideo.id := RecordedVideo.id v;
           RecordedVideo.name := RecordedVideo.name v;
           RecordedVideo.timestamp := RecordedVideo.timestamp v;
           RecordedVideo.duration := RecordedVideo.duration v;
           RecordedVideo.size := RecordedVideo.size v;
           RecordedVideo.thumbnail := Some thumbnail |} :: rest
      else v :: attachThumbnail videoId thumbnail rest
  end.

Record BackfillEnv := {
  backfill_open : OpenOutcome;
  backfill_get : RequestOutcome
}.

(** [getRequest.onsuccess] of the backfill.  [savedVideos] is the array the
    handlers of one call share and update in place. *)
Definition backfill_get_onsuccess (videoId : jsstring) (result : option VideoRecord.t)
    (savedVideos : list RecordedVideo.t) (s : State) : list RecordedVideo.t * State :=
  match result with
  | Some videoRecord =>
      match generateThumbnail (VideoRecord.data videoRecord) with
      | Resolved thumbnail =>
          let savedVideos := attachThumbnail videoId thumbnail savedVideos in
          (savedVideos, setRecordedVideos savedVideos (setItem savedVideos s))
      | _ => (savedVideos, s)
      end
  | None => (savedVideos, s)
  end.

(** The body of the loop: the request is opened, a throw is caught and
    logged to the console only. *)
Definition backfill_open_request (env : jsstring -> BackfillEnv) (s : State)
    (video : RecordedVideo.t) : State :=
  match backfill_open (env (RecordedVideo.id video)) with
  | open_throws => s
  | _ => logged idb_open s
  end.

(** [request.onsuccess] of the backfill, run after the loop has ended. *)
Definition backfill_request_onsuccess (env : jsstring -> BackfillEnv)
    (acc : list RecordedVideo.t * State) (video : RecordedVideo.t)
    : list RecordedVideo.t * State :=
  let videoId := RecordedVideo.id video in
  match backfill_open (env videoId) with
  | open_success =>
      let s := logged (idb_get videoId) (snd acc) in
      match backfill_get (env videoId) with
      | request_success => backfill_get_onsuccess videoId (get videoId s) (fst acc) s
      | request_error => (fst acc, s)
      end
  | _ => acc
  end.

(** The requests are opened in the loop, the list is shown, and the
    handlers run afterwards, here in the order of their requests. *)
Definition loadSavedVideos (env : jsstring -> BackfillEnv) (s : State) : State :=
  let savedVideos := getItem s in
  let videosNeedingThumbnails := List.filter needsThumbnail savedVideos in
  let s := fold_left (backfill_open_request env) videosNeedingThumbnails s in
  let s := setRecordedVideos savedVideos s in
  snd (fold_left (backfill_request_onsuccess env) videosNeedingThumbnails (savedVideos, s)).

(** [list()]: the metadata list a call of [loadSavedVideos] leaves on
    display. *)
Definition list_videos (env : jsstring -> BackfillEnv) (s : State) : list RecordedVideo.t :=
  recordedVideos (loadSavedVideos env s).

(** *** downloadAllVideos *)

Record DownloadEnv := {
  download_open : OpenOutcome;
  download_get : RequestOutcome
}.

(** One turn of the loop: [await downloadVideo(video.id, video.name)], which
    catches what it throws, and the pause of half a second, in which the
    handlers of the request run. *)
Definition downloadOne (env : jsstring -> DownloadEnv) (s : State) (video : RecordedVideo.t)
    : State :=
  downloadVideo (download_open (env (RecordedVideo.id video)))
                (download_get (env (RecordedVideo.id video)))
                (RecordedVideo.id video) (RecordedVideo.name video) s.

(** The state as the function ends; the timers that clear the message
    later are left out. *)
Definition downloadAllVideos (env : jsstring -> DownloadEnv) (s : State) : State :=
  match recordedVideos s with
  | [] => s
  | _ :: _ =>
      let n := decimal (Z.of_nat (length (recordedVideos s))) in
      let s1 := setSuccessMessage (Some (str "Downloading " ++ n ++ str " videos...")) s in
      let s2 := fold_left (downloadOne env) (recordedVideos s) s1 in
      setSuccessMessage (Some (str "Successfully downloaded " ++ n ++ str " videos!")) s2
  end.

(** The file one turn of that loop hands to the browser: the payload of
    the record, if the requests succeed and the object store has it. *)
Definition exported (env : jsstring -> DownloadEnv) (s : State) (video : RecordedVideo.t)
    : list Download :=
  match download_open (env (RecordedVideo.id video)),
        download_get (env (RecordedVideo.id video)),
        get (RecordedVideo.id video) s with
  | open_success, request_success, Some record =>
      [ {| href := VideoRecord.data record;
           download := downloadName (RecordedVideo.name video) |} ]
  | _, _, _ => []
  end.

End Library.
End Library.

(** * Concrete inputs *)

Definition camera : Video Q :=
  {| src := CameraStream; videoWidth := 1280; videoHeight := 720;
     duration := None; currentTime := 0%Q; seeking := false |}.

Definition blankCanvas : Canvas Q :=
  {| canvas_width := 300; canvas_height := 150; context2d := Some [] |}.

Definition mountedSurfaces : Compositor.State Q :=
  {| Compositor.canvasRef := Some blankCanvas;
     Compositor.compositeCanvasRef := Some blankCanvas;
     Compositor.videoRef := Some camera;
     Compositor.faceDetected := false |}.

(** One face at the normalised box (0.3, 0.4, 0.2, 0.25) with two landmarks. *)
Definition oneFace : DetectionResult Q :=
  {| detections :=
       [ {| boundingBox := Some {| xCenter := 3 # 10; yCenter := 2 # 5;
                                   width := 1 # 5; height := 1 # 4 |};
            landmarks := Some [ {| Landmark.x := 1 # 4; Landmark.y := 1 # 2 |};
                                {| Landmark.x := 1 # 3; Landmark.y := 1 # 2 |} ] |} ] |}.

(** One detection that has landmarks but no bounding box. *)
Definition faceWithoutBox : DetectionResult Q :=
  {| detections :=
       [ {| boundingBox := None;
            landmarks := Some [ {| Landmark.x := 1 # 4; Landmark.y := 1 # 2 |} ] |} ] |}.

Definition noFace : DetectionResult Q := {| detections := [] |}.

(** The recorder before the camera is ready: idle, no composite stream. *)
Definition idleWithoutStream : Recorder.State :=
  {| Recorder.isRecording := false; Recorder.recordingDuration := 0;
     Recorder.error := None; Recorder.compositeStreamRef := None;
     Recorder.mediaRecorderRef := None;
     Recorder.recordedChunksRef := [ {| blob_bytes := [1%N; 2%N]; blob_type := "video/webm" |} ];
     Recorder.recordingIntervalRef := None |}.

(** The component before its first initialisation. *)
Definition uninitialised : Init.State :=
  {| Init.error := None; Init.isLoading := true;
     Init.faceDetectionRef := None; Init.tried := [] |}.

(** A network on which only the last location of the list answers. *)
Definition onlyLatest (baseUrl : jsstring) : option string :=
  if bool_decide (baseUrl = str "https://cdn.jsdelivr.net/npm/@mediapipe/face_detection")
  then None else Some "404".

Definition offline (baseUrl : jsstring) : option string := Some "Failed to fetch".

(** A recorded chunk, and two browsers: one decodes a blob as a five-second
    video and completes the seek, the other cannot decode it. *)
Definition clip : Blob :=
  {| blob_bytes := [26%N; 69%N; 223%N; 163%N]; blob_type := "video/webm" |}.

Definition encoder (c : Canvas Q) : jsstring := str "data:image/jpeg;base64,AA".

Definition thumbnailer (b : Blob) : Promise jsstring :=
  Thumbnail.generateThumbnail encoder true
    [Thumbnail.loadedmetadata (5 : Q) 1280 720; Thumbnail.seeked] b.

Definition brokenThumbnailer (b : Blob) : Promise jsstring :=
  Thumbnail.generateThumbnail encoder true [Thumbnail.error] b.

(** The library after a first recording has stopped and before it is saved. *)
Definition firstRecording : Library.State :=
  {| Library.error := None; Library.successMessage := None;
     Library.recordedVideos := []; Library.selectedVideo := None;
     Library.recordedChunksRef := [clip];
     Library.savedVideos := None; Library.videos := ∅;
     Library.storageLog := []; Library.downloads := [] |}.

Definition allGoesWell : Library.SaveEnv :=
  {| Library.now_called := 1700000000000; Library.now_opened := 1700000000100;
     Library.localeString := str "11/14/2023, 10:13:20 PM";
     Library.save_open := Library.open_success;
     Library.save_tx := Library.tx_complete |}.

(** A library whose list names a recording that the object store lacks. *)
Definition orphanedEntry : Library.State :=
  {| Library.error := None; Library.successMessage := None;
     Library.recordedVideos :=
       [ {| RecordedVideo.id := str "video_1"; RecordedVideo.name := str "Recording_1";
            RecordedVideo.timestamp := 1; RecordedVideo.duration := 5;
            RecordedVideo.size := 4;
            RecordedVideo.thumbnail := Some (str "data:image/jpeg;base64,AA") |} ];
     Library.selectedVideo := None;
     Library.recordedChunksRef := [];
     Library.savedVideos :=
       Some [ {| RecordedVideo.id := str "video_1"; RecordedVideo.name := str "Recording_1";
                 RecordedVideo.timestamp := 1; RecordedVideo.duration := 5;
                 RecordedVideo.size := 4;
                 RecordedVideo.thumbnail := Some (str "data:image/jpeg;base64,AA") |} ];
     Library.videos := ∅;
     Library.storageLog := []; Library.downloads := [] |}.

(** The library once that first recording has been saved. *)
Definition oneSaved : Library.State :=
  Library.saveRecording thumbnailer allGoesWell 5 firstRecording.

Definition everythingAnswers (id : jsstring) : Library.BackfillEnv :=
  {| Library.backfill_open := Library.open_success;
     Library.backfill_get := Library.request_success |}.

(** The surfaces after the video element has been unmounted. *)
Definition videoGone : Compositor.State Q :=
  {| Compositor.canvasRef := Some blankCanvas;
     Compositor.compositeCanvasRef := Some blankCanvas;
     Compositor.videoRef := None;
     Compositor.faceDetected := true |}.

(** The capture manager once face detection is loaded and the elements are
    mounted, and two answers to the permission prompt. *)
Definition readyForCamera : Camera.State :=
  {| Camera.faceDetectionRef :=
       Some (Init.newFaceDetection
               (str "https://cdn.jsdelivr.net/npm/@mediapipe/face_detection@0.4.1646425229"));
     Camera.videoRef := Some None; Camera.compositeCanvasRef := true;
     Camera.error := None; Camera.streamRef := None;
     Camera.compositeStreamRef := None; Camera.cameraRef := None;
     Camera.requested := [] |}.

Definition permissionDenied : Camera.Env :=
  {| Camera.getUserMedia := None; Camera.metadataLoads := true |}.

Definition webcamWithMicrophone : Camera.Env :=
  {| Camera.getUserMedia := Some {| Camera.videoTracks := [0%nat]; Camera.audioTracks := [1%nat] |};
     Camera.metadataLoads := true |}.

(** The capture manager after a start-up on which every location failed. *)
Definition waitingForDetection : Camera.State :=
  {| Camera.faceDetectionRef :=
       Init.faceDetectionRef (Init.initializeFaceDetection offline uninitialised);
     Camera.videoRef := Some None; Camera.compositeCanvasRef := true;
     Camera.error := None; Camera.streamRef := None;
     Camera.compositeStreamRef := None; Camera.cameraRef := None;
     Camera.requested := [] |}.

(** A recorder with a composite stream, idle. *)
Definition idleWithStream : Recorder.State :=
  {| Recorder.isRecording := false; Recorder.recordingDuration := 42;
     Recorder.error := None;
     Recorder.compositeStreamRef :=
       Some {| Recorder.frameRate := 30; Recorder.hasAudioTrack := true |};
     Recorder.mediaRecorderRef := None;
     Recorder.recordedChunksRef := [ {| blob_bytes := [1%N; 2%N]; blob_type := "video/webm" |} ];
     Recorder.recordingIntervalRef := None |}.

(** A library from before thumbnails were stored: the list names one
    recording without a thumbnail, the object store has its record. *)
Definition legacyLibrary : Library.State :=
  {| Library.error := None; Library.successMessage := None;
     Library.recordedVideos := []; Library.selectedVideo := None;
     Library.recordedChunksRef := [];
     Library.savedVideos :=
       Some [ {| RecordedVideo.id := str "video_7"; RecordedVideo.name := str "Recording_7";
                 RecordedVideo.timestamp := 7; RecordedVideo.duration := 3;
                 RecordedVideo.size := 4; RecordedVideo.thumbnail := None |} ];
     Library.videos :=
       {[ str "video_7" :=
            {| VideoRecord.id := str "video_7"; VideoRecord.name := str "Recording_7";
               VideoRecord.timestamp := 7; VideoRecord.duration := 3;
               VideoRecord.size := 4; VideoRecord.data := clip |} ]};
     Library.storageLog := []; Library.downloads := [] |}.

Definition everyDownloadAnswers (id : jsstring) : Library.DownloadEnv :=
  {| Library.download_open := Library.open_success;
     Library.download_get := Library.request_success |}.

(** * Overlay compositor: what [onResults] draws *)

Section CompositorFacts.
Context {R : Type} {num : JSNumber R}.
Implicit Types (results : DetectionResult R) (ctx : list (DrawCall R)) (w h : R).

Lemma fold_left_snoc {A B} (f : B -> A) (l : list B) (acc : list A) :
  fold_left (fun acc b => acc ++ [f b]) l acc = acc ++ List.map f l.
Proof.
  revert acc. induction l as [|b l IH]; intros acc; simpl.
  - now rewrite app_nil_r.
  - rewrite IH, <- app_assoc. reflexivity.
Qed.

Lemma drawDetection_app w h ctx (d : Detection R) :
  Compositor.drawDetection w h ctx d = ctx ++ Compositor.shapes_of_detection w h d.
Proof.
  unfold Compositor.drawDetection, Compositor.shapes_of_detection.
  pose proof (fold_left_snoc (Compositor.square_of_landmark w h)) as Hsq.
  unfold Compositor.square_of_landmark in Hsq.
  destruct (boundingBox d) as [bbox|], (landmarks d) as [lms|]; simpl.
  - rewrite Hsq, <- app_assoc. reflexivity.
  - reflexivity.
  - apply Hsq.
  - now rewrite app_nil_r.
Qed.

Lemma drawFaceTracking_app results ctx w h :
  Compositor.drawFaceTracking results ctx w h = ctx ++ Compositor.shapes_of_result w h results.
Proof.
  unfold Compositor.drawFaceTracking, Compositor.shapes_of_result.
  generalize (detections results) as ds. intros ds. revert ctx.
  induction ds as [|d ds IH]; intros ctx; simpl.
  - now rewrite app_nil_r.
  - rewrite IH, drawDetection_app, <- app_assoc. reflexivity.
Qed.

Lemma count_calls_app (p : DrawCall R -> bool) (l1 l2 : list (DrawCall R)) :
  count_calls p (l1 ++ l2) = (count_calls p l1 + count_calls p l2)%nat.
Proof. unfold count_calls. now rewrite List.filter_app, length_app. Qed.

Lemma count_strokeRect_detection w h (d : Detection R) :
  count_calls is_strokeRect (Compositor.shapes_of_detection w h d)
  = if bool_decide (is_Some (boundingBox d)) then 1%nat else 0%nat.
Proof.
  unfold Compositor.shapes_of_detection. rewrite count_calls_app.
  assert (Hsq : forall l, count_calls is_strokeRect
            (List.map (Compositor.square_of_landmark w h) l) = 0%nat).
  { induction l as [|p l IH]; [reflexivity | exact IH]. }
  rewrite Hsq. destruct (boundingBox d); reflexivity.
Qed.

Lemma count_fillRect_detection w h (d : Detection R) :
  count_calls is_fillRect (Compositor.shapes_of_detection w h d)
  = length (default [] (landmarks d)).
Proof.
  unfold Compositor.shapes_of_detection. rewrite count_calls_app.
  assert (Hsq : forall l, count_calls is_fillRect
            (List.map (Compositor.square_of_landmark w h) l) = length l).
  { induction l as [|p l IH]; [reflexivity | unfold count_calls in *; simpl; now rewrite IH]. }
  rewrite Hsq. destruct (boundingBox d); reflexivity.
Qed.

Lemma count_strokeRect_result w h results :
  count_calls is_strokeRect (Compositor.shapes_of_result w h results)
  = Compositor.boxCount results.
Proof.
  unfold Compositor.shapes_of_result, Compositor.boxCount.
  induction (detections results) as [|d ds IH]; [reflexivity|].
  simpl. rewrite count_calls_app, IH, count_strokeRect_detection.
  destruct (bool_decide (is_Some (boundingBox d))); reflexivity.
Qed.

Lemma count_fillRect_result w h results :
  count_calls is_fillRect (Compositor.shapes_of_result w h results)
  = Compositor.landmarkCount results.
Proof.
  unfold Compositor.shapes_of_result, Compositor.landmarkCount.
  induction (detections results) as [|d ds IH]; [reflexivity|].
  simpl. rewrite count_calls_app, IH, count_fillRect_detection. reflexivity.
Qed.

Lemma boxCount_all results :
  (forall d, In d (detections results) -> is_Some (boundingBox d)) ->
  Compositor.boxCount results = length (detections results).
Proof.
  unfold Compositor.boxCount.
  induction (detections results) as [|d ds IH]; intros Hall; [reflexivity|].
  simpl. rewrite bool_decide_eq_true_2 by (apply Hall; now left).
  simpl. f_equal. apply IH. intros d' Hd'. apply Hall. now right.
Qed.

Lemma onResults_mounted results (s : Compositor.State R) ctx compositeCtx video :
  Compositor.mounted s ctx compositeCtx video ->
  let W := num_of_Z (videoWidth video) in
  let Ht := num_of_Z (videoHeight video) in
  let hasfaces := 0 <? Z.of_nat (length (detections results)) in
  Compositor.overlayCalls (Compositor.onResults results s)
    = ctx ++ clearRect (num_of_Z 0) (num_of_Z 0) W Ht
          :: (if hasfaces then Compositor.shapes_of_result W Ht results else []) /\
  Compositor.compositeCalls (Compositor.onResults results s)
    = compositeCtx ++ drawImage video (num_of_Z 0) (num_of_Z 0) W Ht
          :: (if hasfaces then Compositor.shapes_of_result W Ht results else []) /\
  Compositor.faceDetected (Compositor.onResults results s) = hasfaces.
Proof.
  intros (canvas & compositeCanvas & Hc & Hcc & Hv & Hctx & Hcctx). cbv zeta.
  unfold Compositor.onResults, Compositor.overlayCalls, Compositor.compositeCalls.
  rewrite Hc, Hcc, Hv, Hctx, Hcctx. simpl.
  destruct (0 <? Z.of_nat (length (detections results))); simpl.
  - rewrite !drawFaceTracking_app, <- !app_assoc. auto.
  - auto.
Qed.

Lemma length_shapes_of_result w h results :
  length (Compositor.shapes_of_result w h results)
  = (Compositor.boxCount results + Compositor.landmarkCount results)%nat.
Proof.
  unfold Compositor.shapes_of_result, Compositor.boxCount, Compositor.landmarkCount.
  induction (detections results) as [|d ds IH]; [reflexivity|].
  simpl. rewrite length_app, IH. unfold Compositor.shapes_of_detection.
  rewrite length_app, !length_map.
  destruct (boundingBox d); simpl; lia.
Qed.

(** C1 (amended).  With the surfaces mounted and at least one detection,
    [onResults] appends to the overlay context the clearing call followed by
    the shapes of the result, and to the composite context the video frame
    followed by the very same shapes, both computed for the video's native
    size: by [rect_of_bbox] one stroked rectangle for each detection that
    carries a bounding box (top-left at centre times size minus half the
    scaled extent), and by [square_of_landmark] one filled square for each
    landmark.  Hence as many rectangles as detections with a bounding box,
    which is N when every detection has one, and as many squares as the
    landmark counts add up to. *)
Theorem onResults_draws_detections results (s : Compositor.State R) ctx compositeCtx video :
  Compositor.mounted s ctx compositeCtx video ->
  (1 <= length (detections results))%nat ->
  let W := num_of_Z (videoWidth video) in
  let Ht := num_of_Z (videoHeight video) in
  let shapes := Compositor.shapes_of_result W Ht results in
  Compositor.overlayCalls (Compositor.onResults results s)
    = ctx ++ clearRect (num_of_Z 0) (num_of_Z 0) W Ht :: shapes /\
  Compositor.compositeCalls (Compositor.onResults results s)
    = compositeCtx ++ drawImage video (num_of_Z 0) (num_of_Z 0) W Ht :: shapes /\
  count_calls is_strokeRect shapes = Compositor.boxCount results /\
  count_calls is_fillRect shapes = Compositor.landmarkCount results /\
  length shapes = (Compositor.boxCount results + Compositor.landmarkCount results)%nat /\
  ((forall d, In d (detections results) -> is_Some (boundingBox d)) ->
   count_calls is_strokeRect shapes = length (detections results)).
Proof.
  intros Hm HN W Ht shapes.
  destruct (onResults_mounted results s ctx compositeCtx video Hm) as (Ho & Hc & _).
  assert (Hfaces : (0 <? Z.of_nat (length (detections results))) = true)
    by (apply Z.ltb_lt; lia).
  rewrite Hfaces in Ho, Hc.
  repeat split.
  - exact Ho.
  - exact Hc.
  - apply count_strokeRect_result.
  - apply count_fillRect_result.
  - apply length_shapes_of_result.
  - intros Hall. unfold shapes. rewrite count_strokeRect_result. now apply boxCount_all.
Qed.

(** C2.  With the surfaces mounted and no detection, [onResults] issues
    exactly one call on the overlay context, the clearing of the whole
    surface, and exactly one on the composite context, the painting of the
    current video frame: no rectangle and no square on either; and it sets
    [faceDetected] to false. *)
Theorem onResults_no_detection results (s : Compositor.State R) ctx compositeCtx video :
  Compositor.mounted s ctx compositeCtx video ->
  detections results = [] ->
  let W := num_of_Z (videoWidth video) in
  let Ht := num_of_Z (videoHeight video) in
  Compositor.overlayCalls (Compositor.onResults results s)
    = ctx ++ [clearRect (num_of_Z 0) (num_of_Z 0) W Ht] /\
  Compositor.compositeCalls (Compositor.onResults results s)
    = compositeCtx ++ [drawImage video (num_of_Z 0) (num_of_Z 0) W Ht] /\
  Compositor.faceDetected (Compositor.onResults results s) = false.
Proof.
  intros Hm Hnil W Ht.
  destruct (onResults_mounted results s ctx compositeCtx video Hm) as (Ho & Hc & Hf).
  rewrite Hnil in Ho, Hc, Hf. simpl in Ho, Hc, Hf. auto.
Qed.

End CompositorFacts.

Lemma onResults_draws_detections_witness :
  Compositor.mounted mountedSurfaces [] [] camera /\
  (1 <= length (detections oneFace))%nat /\
  Compositor.overlayCalls (Compositor.onResults oneFace mountedSurfaces)
    = [] ++ clearRect (num_of_Z 0) (num_of_Z 0) (num_of_Z 1280) (num_of_Z 720)
         :: Compositor.shapes_of_result (num_of_Z 1280) (num_of_Z 720) oneFace.
Proof.
  assert (Hm : Compositor.mounted mountedSurfaces [] [] camera)
    by (exists blankCanvas, blankCanvas; repeat split; reflexivity).
  assert (HN : (1 <= length (detections oneFace))%nat) by (simpl; lia).
  split; [exact Hm|]. split; [exact HN|].
  exact (proj1 (onResults_draws_detections oneFace mountedSurfaces [] [] camera Hm HN)).
Defined.

(** C1 as stated fails: a result with one detection that has no bounding
    box makes [onResults] draw no rectangle at all, on either surface. *)
Lemma onResults_rectangles_counterexample :
  (1 <= length (detections faceWithoutBox))%nat /\
  count_calls is_strokeRect
    (Compositor.overlayCalls (Compositor.onResults faceWithoutBox mountedSurfaces))
    <> length (detections faceWithoutBox) /\
  count_calls is_strokeRect
    (Compositor.compositeCalls (Compositor.onResults faceWithoutBox mountedSurfaces))
    <> length (detections faceWithoutBox).
Proof. vm_compute. repeat split; try lia; discriminate. Qed.

Lemma onResults_no_detection_witness :
  Compositor.mounted mountedSurfaces [] [] camera /\
  detections noFace = [] /\
  Compositor.faceDetected (Compositor.onResults noFace mountedSurfaces) = false.
Proof.
  assert (Hm : Compositor.mounted mountedSurfaces [] [] camera)
    by (exists blankCanvas, blankCanvas; repeat split; reflexivity).
  split; [exact Hm|]. split; [reflexivity|].
  apply (onResults_no_detection noFace mountedSurfaces [] [] camera Hm eq_refl).
Defined.

(** * Recording controller: starting without a stream *)

(** C3.  Called while [compositeStreamRef] is empty, [startRecording] only
    sets the error message "Composite stream not ready...": the recording
    flag, the duration counter and its interval, the recorder session and
    the chunk buffer are what they were, whatever the browser would have
    answered. *)
Theorem startRecording_not_ready (isTypeSupported : string -> bool)
    (canStart : Recorder.MediaStream -> bool) (nextInterval : Z) (s : Recorder.State) :
  Recorder.compositeStreamRef s = None ->
  let s' := Recorder.startRecording isTypeSupported canStart nextInterval s in
  Recorder.error s'
    = Some "Composite stream not ready. Please wait for camera initialization." /\
  Recorder.isRecording s' = Recorder.isRecording s /\
  Recorder.recordingDuration s' = Recorder.recordingDuration s /\
  Recorder.mediaRecorderRef s' = Recorder.mediaRecorderRef s /\
  Recorder.recordedChunksRef s' = Recorder.recordedChunksRef s /\
  Recorder.recordingIntervalRef s' = Recorder.recordingIntervalRef s /\
  Recorder.compositeStreamRef s' = None /\
  (Recorder.isRecording s = false -> Recorder.isRecording s' = false).
Proof.
  intros Hnone s'. subst s'. unfold Recorder.startRecording. rewrite Hnone.
  simpl. repeat split; auto.
Qed.

Lemma startRecording_not_ready_witness :
  Recorder.compositeStreamRef idleWithoutStream = None /\
  Recorder.isRecording
    (Recorder.startRecording (fun _ => true) (fun _ => true) 7 idleWithoutStream) = false.
Proof.
  split; [reflexivity|].
  apply (startRecording_not_ready (fun _ => true) (fun _ => true) 7 idleWithoutStream eq_refl).
  reflexivity.
Defined.

(** * Detection adapter start-up: the order of the attempts *)

Section InitFacts.
Variable load : jsstring -> option string.

(** Every location fails: all are tried, in order, and no instance is left. *)
Lemma tryEach_all_fail urls fd le console :
  (forall u, In u urls -> load u <> None) ->
  urls <> [] ->
  exists le', Init.tryEach load urls fd le console = (None, le', console ++ urls).
Proof.
  revert fd le console. induction urls as [|u urls IH]; intros fd le console Hall Hne.
  - congruence.
  - simpl. destruct (load u) as [err|] eqn:Hu.
    + destruct urls as [|u' urls'].
      * simpl. eauto.
      * destruct (IH None (Some err) (console ++ [u])) as [le' Hle'].
        { intros v Hv. apply Hall. now right. }
        { discriminate. }
        exists le'. rewrite Hle', <- app_assoc. reflexivity.
    + exfalso. apply (Hall u); [now left | exact Hu].
Qed.

(** A location answers after a run of failures: the attempts stop there. *)
Lemma tryEach_first_success pre u post fd le console :
  (forall v, In v pre -> load v <> None) ->
  load u = None ->
  exists le', Init.tryEach load (pre ++ u :: post) fd le console
              = (Some (Init.newFaceDetection u), le', console ++ pre ++ [u]).
Proof.
  revert fd le console. induction pre as [|v pre IH]; intros fd le console Hpre Hu.
  - simpl. rewrite Hu. eauto.
  - simpl. destruct (load v) as [err|] eqn:Hv.
    + destruct (IH None (Some err) (console ++ [v])) as [le' Hle'].
      { intros w Hw. apply Hpre. now right. }
      { exact Hu. }
      exists le'. rewrite Hle', <- app_assoc. reflexivity.
    + exfalso. apply (Hpre v); [now left | exact Hv].
Qed.

(** Either every location fails or there is a first one that answers. *)
Lemma first_success_or_all_fail (urls : list jsstring) :
  (forall u, In u urls -> load u <> None) \/
  (exists pre u post, urls = pre ++ u :: post /\
     (forall v, In v pre -> load v <> None) /\ load u = None).
Proof.
  induction urls as [|u urls IH].
  - left. intros u [].
  - destruct (load u) as [err|] eqn:Hu.
    + destruct IH as [Hall | (pre & v & post & -> & Hpre & Hv)].
      * left. intros w [<- | Hw]; [congruence | now apply Hall].
      * right. exists (u :: pre), v, post. repeat split; auto.
        intros w [<- | Hw]; [congruence | now apply Hpre].
    + right. exists [], u, urls. repeat split; auto; intros v [].
Qed.

(** C8.  [initializeFaceDetection] tries the locations of [cdnUrls] in the
    order of the list.  If a location answers after all earlier ones failed,
    exactly the locations up to and including it are tried, the instance
    loaded from it is stored and no error is shown.  If all fail, all are
    tried and the initialisation failure is shown.  So the failure is shown
    if and only if every location fails, and loading has ended either way. *)
Theorem initializeFaceDetection_order (s : Init.State) :
  let s' := Init.initializeFaceDetection load s in
  (forall pre u post,
     Init.cdnUrls = pre ++ u :: post ->
     (forall v, In v pre -> load v <> None) -> load u = None ->
     Init.tried s' = Init.tried s ++ pre ++ [u] /\
     Init.faceDetectionRef s' = Some (Init.newFaceDetection u) /\
     Init.error s' = None) /\
  ((forall u, In u Init.cdnUrls -> load u <> None) ->
     Init.tried s' = Init.tried s ++ Init.cdnUrls /\
     Init.faceDetectionRef s' = Init.faceDetectionRef s) /\
  (Init.error s' = Some "Failed to initialize face detection. Please check your internet connection and refresh the page."
     <-> forall u, In u Init.cdnUrls -> load u <> None) /\
  Init.isLoading s' = false.
Proof.
  intros s'.
  assert (Hsucc : forall pre u post,
     Init.cdnUrls = pre ++ u :: post ->
     (forall v, In v pre -> load v <> None) -> load u = None ->
     Init.tried s' = Init.tried s ++ pre ++ [u] /\
     Init.faceDetectionRef s' = Some (Init.newFaceDetection u) /\
     Init.error s' = None /\ Init.isLoading s' = false).
  { intros pre u post Hurls Hpre Hu. subst s'. unfold Init.initializeFaceDetection.
    cbn [Init.tried Init.error Init.faceDetectionRef Init.isLoading]. rewrite Hurls.
    destruct (tryEach_first_success pre u post None None (Init.tried s) Hpre Hu) as [le' ->].
    simpl. auto. }
  assert (Hfail : (forall u, In u Init.cdnUrls -> load u <> None) ->
     Init.tried s' = Init.tried s ++ Init.cdnUrls /\
     Init.faceDetectionRef s' = Init.faceDetectionRef s /\
     Init.error s' = Some "Failed to initialize face detection. Please check your internet connection and refresh the page." /\
     Init.isLoading s' = false).
  { intros Hall. subst s'. unfold Init.initializeFaceDetection.
    destruct (tryEach_all_fail Init.cdnUrls None None (Init.tried s) Hall) as [le' Hle'].
    { discriminate. }
    cbn [Init.tried Init.error Init.faceDetectionRef Init.isLoading]. rewrite Hle'.
    simpl. auto. }
  repeat split.
  - eapply Hsucc; eauto.
  - eapply Hsucc; eauto.
  - eapply Hsucc; eauto.
  - now apply Hfail.
  - now apply Hfail.
  - intros Herr. destruct (first_success_or_all_fail Init.cdnUrls)
      as [Hall | (pre & u & post & Hurls & Hpre & Hu)]; [exact Hall|].
    destruct (Hsucc pre u post Hurls Hpre Hu) as (_ & _ & Hnone & _). congruence.
  - intros Hall. now apply Hfail.
  - destruct (first_success_or_all_fail Init.cdnUrls)
      as [Hall | (pre & u & post & Hurls & Hpre & Hu)].
    + now apply Hfail.
    + now apply (Hsucc pre u post).
Qed.

End InitFacts.

Lemma initializeFaceDetection_order_witness :
  Init.tried (Init.initializeFaceDetection onlyLatest uninitialised) = Init.cdnUrls /\
  Init.error (Init.initializeFaceDetection onlyLatest uninitialised) = None /\
  Init.error (Init.initializeFaceDetection offline uninitialised)
    = Some "Failed to initialize face detection. Please check your internet connection and refresh the page.".
Proof.
  pose proof (initializeFaceDetection_order onlyLatest uninitialised) as (Hfirst & _).
  pose proof (initializeFaceDetection_order offline uninitialised) as (_ & _ & Hiff & _).
  destruct (Hfirst
    [ str "https://cdn.jsdelivr.net/npm/@mediapipe/face_detection@0.4.1646425229";
      str "https://cdn.jsdelivr.net/npm/@mediapipe/face_detection@0.4" ]
    (str "https://cdn.jsdelivr.net/npm/@mediapipe/face_detection") [])
    as (Ht & _ & He).
  - reflexivity.
  - intros v [<- | [<- | []]]; vm_compute; discriminate.
  - vm_compute. reflexivity.
  - split; [exact Ht|]. split; [exact He|].
    apply Hiff. intros u _. discriminate.
Defined.

(** * Export: the file name of a download *)

Lemma replace_non_alphanumeric_underscore (s : jsstring) :
  replace_non_alphanumeric (str "_") s
  = List.map (fun c => if alphanumeric c then c else 95%N) s.
Proof.
  unfold replace_non_alphanumeric.
  induction s as [|c s IH]; [reflexivity|].
  simpl. rewrite IH. destruct (alphanumeric c); reflexivity.
Qed.

(** C7 (amended).  The file name of an export is the display name with every
    code unit that is not a letter or digit of ASCII replaced by an
    underscore, position by position, followed by ".webm": the stem is as
    long as the name, keeps the letters and digits where they were, and
    consists of letters, digits and underscores only. *)
Theorem downloadName_underscores (videoName : jsstring) :
  exists stem,
    downloadName videoName = stem ++ str ".webm" /\
    length stem = length videoName /\
    (forall (i : nat) c, videoName !! i = Some c ->
       stem !! i = Some (if alphanumeric c then c else 95%N)) /\
    Forall (fun c => alphanumeric c = true \/ c = 95%N) stem /\
    (Forall (fun c => alphanumeric c = true) videoName -> stem = videoName).
Proof.
  exists (List.map (fun c => if alphanumeric c then c else 95%N) videoName).
  unfold downloadName. rewrite replace_non_alphanumeric_underscore.
  repeat split.
  - apply length_map.
  - intros i c Hi. rewrite list_lookup_fmap, Hi. reflexivity.
  - apply List.Forall_forall. intros c Hc. apply in_map_iff in Hc as (c0 & <- & _).
    destruct (alphanumeric c0) eqn:Hc0; auto.
  - intros Hall. induction Hall as [|c l Hc _ IH]; [reflexivity|].
    simpl. rewrite Hc, IH. reflexivity.
Qed.

(** C7 as stated fails: for the name "a b" the stem is "a_b", which is
    neither made of letters and digits only nor the name with the other
    characters removed. *)
Lemma downloadName_alphanumeric_counterexample :
  downloadName (str "a b") = str "a_b.webm" /\
  ~ (exists stem, downloadName (str "a b") = stem ++ str ".webm" /\
                  Forall (fun c => alphanumeric c = true) stem) /\
  downloadName (str "a b") <> List.filter alphanumeric (str "a b") ++ str ".webm".
Proof.
  split; [reflexivity|]. split.
  - intros (stem & Heq & Hall).
    change (downloadName (str "a b")) with (str "a_b" ++ str ".webm") in Heq.
    apply app_inv_tail in Heq. subst stem.
    apply List.Forall_forall with (x := 95%N) in Hall; [discriminate Hall|].
    vm_compute. auto.
  - vm_compute. discriminate.
Qed.

(** * Thumbnail generator: seek first, capture afterwards *)

Section ThumbnailFacts.
Context {R : Type} {num : JSNumber R}.
Variable toDataURL : Canvas R -> jsstring.
Variable blob : Blob.

Lemma run_snoc evs e (st : Thumbnail.State R) :
  Thumbnail.run toDataURL (evs ++ [e]) st
  = Thumbnail.deliver toDataURL (Thumbnail.run toDataURL evs st) e.
Proof. unfold Thumbnail.run. now rewrite fold_left_app. Qed.

Lemma invariant_start hasContext :
  Thumbnail.invariant blob [] (Thumbnail.start hasContext blob).
Proof.
  unfold Thumbnail.invariant, Thumbnail.start, Thumbnail.captured.
  destruct hasContext; simpl; repeat split; eauto; try discriminate.
Qed.

(** An event that leaves the locals as they are keeps the invariant. *)
Lemma invariant_idle evs e (st : Thumbnail.State R) :
  Thumbnail.invariant blob evs st -> Thumbnail.invariant blob (evs ++ [e]) st.
Proof.
  intros (Hl & Hn & Hd & Hp).
  split; [exact Hl|]. split; [exact Hn|]. split; [|exact Hp].
  intros d Hdur. destruct (Hd d Hdur) as (Hct & w & h & pre & post & -> & Hs & Hv).
  split; [exact Hct|].
  exists w, h, pre, (post ++ [e]). split; [now rewrite <- app_assoc|].
  split; [|exact Hv]. intros Hc. apply in_or_app. left. now apply Hs.
Qed.

Lemma captured_snoc (st : Thumbnail.State R) ctx :
  context2d (Thumbnail.canvas st) = Some ctx ->
  Thumbnail.captured (Thumbnail.on_seeked toDataURL st)
  = Thumbnail.captured st ++ [Thumbnail.video st].
Proof.
  intros Hctx. unfold Thumbnail.captured, Thumbnail.on_seeked. simpl.
  rewrite Hctx. simpl. rewrite flat_map_app. reflexivity.
Qed.

(** Every event keeps the invariant. *)
Lemma invariant_deliver evs e (st : Thumbnail.State R) :
  Thumbnail.invariant blob evs st ->
  Thumbnail.invariant blob (evs ++ [e]) (Thumbnail.deliver toDataURL st e).
Proof.
  intros Hinv. unfold Thumbnail.deliver.
  destruct (Thumbnail.listening st) eqn:Hlis; simpl; [|now apply invariant_idle].
  destruct e as [d w h | | ].
  - (* loadedmetadata *)
    destruct (duration (Thumbnail.video st)) as [d0|] eqn:Hdur; [now apply invariant_idle|].
    destruct Hinv as (Hl & Hn & _ & Hp).
    destruct (Hl Hlis) as (Hctx & Hsrc). destruct (Hn Hdur) as (Hcap & Hseek).
    unfold Thumbnail.invariant, Thumbnail.on_loadedmetadata, Thumbnail.captured in *.
    simpl. split; [auto|]. split; [discriminate|]. split.
    + intros d' [= <-]. split; [reflexivity|].
      exists w, h, evs, []. split; [reflexivity|]. rewrite Hcap.
      split; [congruence | intros v []].
    + exact Hp.
  - (* seeked *)
    destruct (seeking (Thumbnail.video st)) eqn:Hseek; [|now apply invariant_idle].
    destruct Hinv as (Hl & Hn & Hd & Hp).
    destruct (Hl Hlis) as ([ctx Hctx] & Hsrc).
    destruct (duration (Thumbnail.video st)) as [d|] eqn:Hdur;
      [|destruct (Hn eq_refl) as (_ & Hf); congruence].
    destruct (Hd d eq_refl) as (Hct & w & h & pre & post & -> & Hs & Hv).
    match goal with
    | |- Thumbnail.invariant _ _ (Thumbnail.on_seeked _ ?s) => set (st1 := s)
    end.
    assert (Hcap1 : Thumbnail.captured st1 = Thumbnail.captured st) by reflexivity.
    assert (Hctx1 : context2d (Thumbnail.canvas st1) = Some ctx) by exact Hctx.
    unfold Thumbnail.invariant. rewrite (captured_snoc st1 ctx Hctx1), Hcap1.
    split; [|split; [|split]].
    + intros _. simpl. rewrite Hctx. split; [eauto | exact Hsrc].
    + discriminate.
    + intros d' [= <-]. split; [exact Hct|].
      exists w, h, pre, (post ++ [Thumbnail.seeked]).
      split; [now rewrite <- app_assoc|]. split.
      * intros _. apply in_or_app. right. now left.
      * intros v Hin. apply in_app_or in Hin as [Hin | [<- | []]]; [now apply Hv|].
        simpl. auto.
    + intros t _. now destruct (Thumbnail.captured st).
  - (* error *)
    apply (invariant_idle evs Thumbnail.error) in Hinv.
    destruct Hinv as (Hl & Hn & Hd & Hp).
    unfold Thumbnail.invariant, Thumbnail.on_error, Thumbnail.captured in *. simpl.
    split; [exact Hl|]. split; [exact Hn|]. split; [exact Hd|].
    intros t Ht. apply (Hp t). destruct (Thumbnail.promise st); simpl in Ht; congruence.
Qed.

Lemma invariant_run hasContext evs :
  Thumbnail.invariant blob evs
    (Thumbnail.run toDataURL evs (Thumbnail.start hasContext blob)).
Proof.
  induction evs as [|e evs IH] using rev_ind.
  - apply invariant_start.
  - rewrite run_snoc. now apply invariant_deliver.
Qed.

(** A rejection is final. *)
Lemma run_rejected evs (st : Thumbnail.State R) e :
  Thumbnail.promise st = Rejected e ->
  Thumbnail.promise (Thumbnail.run toDataURL evs st) = Rejected e.
Proof.
  revert st. induction evs as [|ev evs IH]; intros st Hrej; [exact Hrej|].
  simpl. apply IH. unfold Thumbnail.deliver.
  destruct (Thumbnail.listening st); simpl; [|exact Hrej].
  destruct ev as [d w h | | ].
  - destruct (duration (Thumbnail.video st)); simpl; exact Hrej.
  - destruct (seeking (Thumbnail.video st)); simpl; [|exact Hrej]. now rewrite Hrej.
  - simpl. now rewrite Hrej.
Qed.

(** A payload the browser cannot decode: the first event is [error], and the
    promise is rejected whatever follows. *)
Lemma generateThumbnail_undecodable evs :
  Thumbnail.generateThumbnail toDataURL true (Thumbnail.error :: evs) blob
  = Rejected "Error loading video for thumbnail".
Proof. unfold Thumbnail.generateThumbnail. simpl. now apply run_rejected. Qed.

(** C6.  For a payload whose metadata gives the duration [d]: when the
    metadata arrives the element is sent to [min(1, d/2)] and nothing is
    captured yet; when the seek has completed the frame at that very time is
    painted and the promise is resolved with its encoding.  And whatever
    events the browser fires in whatever order, a frame is captured only
    after the metadata and a later [seeked], every captured frame is the one
    at [min(1, d/2)] with no seek under way, and the promise is resolved only
    once a frame has been captured. *)
Theorem generateThumbnail_seeks_then_captures (d : R) (w h : Z) :
  (let st := Thumbnail.run toDataURL [Thumbnail.loadedmetadata d w h]
               (Thumbnail.start true blob) in
   currentTime (Thumbnail.video st) = num_min (num_of_Z 1) (num_div d (num_of_Z 2)) /\
   seeking (Thumbnail.video st) = true /\
   Thumbnail.captured st = [] /\
   Thumbnail.promise st = Pending) /\
  (let st := Thumbnail.run toDataURL [Thumbnail.loadedmetadata d w h; Thumbnail.seeked]
               (Thumbnail.start true blob) in
   Thumbnail.captured st
     = [ {| src := ObjectURL blob; videoWidth := w; videoHeight := h;
            duration := Some d;
            currentTime := num_min (num_of_Z 1) (num_div d (num_of_Z 2));
            seeking := false |} ] /\
   Thumbnail.promise st = Resolved (toDataURL (Thumbnail.canvas st))) /\
  (forall hasContext evs v,
     In v (Thumbnail.captured
             (Thumbnail.run toDataURL evs (Thumbnail.start hasContext blob))) ->
     exists d' w' h' pre post,
       evs = pre ++ Thumbnail.loadedmetadata d' w' h' :: post /\
       In Thumbnail.seeked post /\
       currentTime v = num_min (num_of_Z 1) (num_div d' (num_of_Z 2)) /\
       seeking v = false) /\
  (forall hasContext evs t,
     Thumbnail.generateThumbnail toDataURL hasContext evs blob = Resolved t ->
     Thumbnail.captured
       (Thumbnail.run toDataURL evs (Thumbnail.start hasContext blob)) <> []).
Proof.
  split; [|split; [|split]].
  - cbv zeta. simpl. auto.
  - cbv zeta. simpl. auto.
  - intros hasContext evs v Hin.
    destruct (invariant_run hasContext evs) as (_ & Hn & Hd & _).
    destruct (duration (Thumbnail.video
                (Thumbnail.run toDataURL evs (Thumbnail.start hasContext blob))))
      as [d'|] eqn:Hdur.
    + destruct (Hd d' eq_refl) as (_ & w' & h' & pre & post & Hevs & Hs & Hv).
      exists d', w', h', pre, post. split; [exact Hevs|]. split.
      * apply Hs. intros Hnil. rewrite Hnil in Hin. destruct Hin.
      * destruct (Hv v Hin) as (Hct & Hsk & _). split; [exact Hct | exact Hsk].
    + destruct (Hn eq_refl) as (Hnil & _). rewrite Hnil in Hin. destruct Hin.
  - intros hasContext evs t Ht.
    destruct (invariant_run hasContext evs) as (_ & _ & _ & Hp). now apply (Hp t).
Qed.

End ThumbnailFacts.

(** * Recording library: saving *)

Section LibraryFacts.
Variable generateThumbnail : Blob -> Promise jsstring.

Lemma save_transaction_oncomplete_metadata videoRecord thumbnail (s : Library.State) :
  Library.save_transaction_oncomplete (VideoRecord.id videoRecord) videoRecord thumbnail s
  = Library.setRecordedVideos
      (Library.getItem s ++ [Library.metadata_of videoRecord thumbnail])
      (Library.setItem (Library.getItem s ++ [Library.metadata_of videoRecord thumbnail]) s).
Proof. reflexivity. Qed.

(** What a call of [saveRecording] can come to: either neither copy of the
    metadata list nor the object store changes and the stores saw at most the
    opening of the database and the request to add, or the whole sequence
    ran. *)
Lemma saveRecording_cases (env : Library.SaveEnv) (recordingDuration : Z) (s : Library.State) :
  let s' := Library.saveRecording generateThumbnail env recordingDuration s in
  let blob := new_Blob (Library.recordedChunksRef s) "video/webm" in
  (Library.savedVideos s' = Library.savedVideos s /\
   Library.recordedVideos s' = Library.recordedVideos s /\
   Library.videos s' = Library.videos s /\
   exists new, Library.storageLog s' = Library.storageLog s ++ new /\
               forall ev, In ev new -> ev = Library.idb_open \/ exists r, ev = Library.idb_add r)
  \/
  (exists videoRecord thumbnail,
     generateThumbnail blob = Resolved thumbnail /\
     VideoRecord.data videoRecord = blob /\
     Library.videos s !! VideoRecord.id videoRecord = None /\
     Library.videos s' = <[VideoRecord.id videoRecord := videoRecord]> (Library.videos s) /\
     Library.storageLog s'
       = Library.storageLog s ++
         [ Library.idb_open; Library.idb_add videoRecord; Library.idb_complete;
           Library.ls_setItem
             (Library.getItem s ++ [Library.metadata_of videoRecord thumbnail]) ] /\
     Library.savedVideos s'
       = Some (Library.getItem s ++ [Library.metadata_of videoRecord thumbnail]) /\
     Library.recordedVideos s'
       = Library.getItem s ++ [Library.metadata_of videoRecord thumbnail]).
Proof.
  intros s' blob. subst s'. unfold Library.saveRecording.
  assert (Hidle :
    Library.savedVideos s = Library.savedVideos s /\
    Library.recordedVideos s = Library.recordedVideos s /\
    Library.videos s = Library.videos s /\
    exists new, Library.storageLog s = Library.storageLog s ++ new /\
      forall ev, In ev new -> ev = Library.idb_open \/ exists r, ev = Library.idb_add r).
  { repeat split. exists []. split; [now rewrite app_nil_r | intros ev []]. }
  destruct (Library.recordedChunksRef s) as [|chunk chunks] eqn:Hchunks; [left; apply Hidle|].
  fold blob. destruct (generateThumbnail blob) as [|thumbnail|e] eqn:Hthumb.
  - left. apply Hidle.
  - destruct (Library.save_open env).
    + unfold Library.save_request_onsuccess, Library.add_record.
      cbn [Library.logged Library.videos VideoRecord.id].
      match goal with |- context [Library.idb_add ?r] => set (videoRecord := r) end.
      assert (Hstopped : forall s0 : Library.State,
        s0 = Library.logged (Library.idb_add videoRecord) (Library.logged Library.idb_open s) ->
        Library.savedVideos s0 = Library.savedVideos s /\
        Library.recordedVideos s0 = Library.recordedVideos s /\
        Library.videos s0 = Library.videos s /\
        exists new, Library.storageLog s0 = Library.storageLog s ++ new /\
          forall ev, In ev new -> ev = Library.idb_open \/ exists r, ev = Library.idb_add r).
      { intros s0 ->. simpl. repeat split.
        exists [Library.idb_open; Library.idb_add videoRecord].
        split; [now rewrite <- app_assoc|].
        intros ev [<- | [<- | []]]; eauto. }
      destruct (Library.save_tx env); [|left; now apply Hstopped].
      destruct (Library.videos s !! (str "video_" ++ decimal (Library.now_called env)))
        as [taken|] eqn:Hkey; [left; now apply Hstopped|].
      right. exists videoRecord, thumbnail.
      change (str "video_" ++ decimal (Library.now_called env))
        with (VideoRecord.id videoRecord) in Hkey |- *.
      rewrite save_transaction_oncomplete_metadata. simpl.
      repeat split; auto. now rewrite <- !app_assoc.
    + left. simpl. repeat split. exists [Library.idb_open]. split; [reflexivity|].
      intros ev [<- | []]. auto.
    + left. simpl. repeat split. exists [Library.idb_open]. split; [reflexivity|].
      intros ev [<- | []]. auto.
    + left. simpl. repeat split. exists []. split; [now rewrite app_nil_r | intros ev []].
  - left. simpl. repeat split. exists []. split; [now rewrite app_nil_r | intros ev []].
Qed.

(** C4.  In the storage operations of one [saveRecording], a write of the
    metadata list to the key-value store has exactly three predecessors, the
    opening of the database, the request adding the full record with the
    payload, and the completion of that transaction, and it is the last
    operation; when it happens the object store holds the full record, and
    the list written, which is the old list with the metadata-only record
    appended, is also the in-memory list.  If no such write happens, neither
    copy of the list changes. *)
Theorem saveRecording_metadata_after_write (env : Library.SaveEnv) (recordingDuration : Z)
    (s : Library.State) :
  let s' := Library.saveRecording generateThumbnail env recordingDuration s in
  let blob := new_Blob (Library.recordedChunksRef s) "video/webm" in
  exists new,
    Library.storageLog s' = Library.storageLog s ++ new /\
    (forall pre l post,
       new = pre ++ Library.ls_setItem l :: post ->
       exists videoRecord thumbnail,
         pre = [Library.idb_open; Library.idb_add videoRecord; Library.idb_complete] /\
         post = [] /\
         VideoRecord.data videoRecord = blob /\
         Library.get (VideoRecord.id videoRecord) s' = Some videoRecord /\
         l = Library.getItem s ++ [Library.metadata_of videoRecord thumbnail] /\
         Library.savedVideos s' = Some l /\
         Library.recordedVideos s' = l) /\
    ((forall l, ~ In (Library.ls_setItem l) new) ->
       Library.savedVideos s' = Library.savedVideos s /\
       Library.recordedVideos s' = Library.recordedVideos s).
Proof.
  intros s' blob.
  destruct (saveRecording_cases env recordingDuration s)
    as [(Hls & Hmem & _ & new & Hlog & Hnew)
       | (videoRecord & thumbnail & _ & Hdata & _ & Hvideos & Hlog & Hls & Hmem)];
    fold s' in Hls, Hmem, Hlog.
  - exists new. split; [exact Hlog|]. split; [|auto].
    intros pre l post ->.
    destruct (Hnew (Library.ls_setItem l)) as [Habs | [r Habs]]; try discriminate.
    apply in_or_app. right. now left.
  - fold s' in Hvideos. eexists. split; [exact Hlog|]. split.
    + intros pre l post Hsplit. exists videoRecord, thumbnail.
      assert (Hpre : pre = [Library.idb_open; Library.idb_add videoRecord; Library.idb_complete]
                     /\ post = []
                     /\ l = Library.getItem s ++ [Library.metadata_of videoRecord thumbnail]).
      { destruct pre as [|e1 [|e2 [|e3 [|e4 pre]]]]; simpl in Hsplit;
          try discriminate Hsplit.
        - injection Hsplit as <- <- <- <- <-. auto.
        - injection Hsplit as _ _ _ _ Habs. destruct pre; discriminate Habs. }
      destruct Hpre as (-> & -> & ->).
      repeat split; auto.
      unfold Library.get. rewrite Hvideos. apply lookup_insert_eq.
    + intros Hno. exfalso. apply (Hno (Library.getItem s ++
                                        [Library.metadata_of videoRecord thumbnail])).
      simpl. auto.
Qed.

(** C10.  When the thumbnail promise of the finalised payload is rejected,
    [saveRecording] does nothing but show "Failed to save recording": no
    operation reaches either store, the object store and both copies of the
    metadata list are unchanged.  And in every run, a record enters the
    object store or an entry the list only if the thumbnail promise was
    resolved, and the entry carries that thumbnail. *)
Theorem saveRecording_thumbnail_rejected (env : Library.SaveEnv) (recordingDuration : Z)
    (s : Library.State) :
  let s' := Library.saveRecording generateThumbnail env recordingDuration s in
  let blob := new_Blob (Library.recordedChunksRef s) "video/webm" in
  (Library.recordedChunksRef s <> [] ->
   forall e, generateThumbnail blob = Rejected e ->
     s' = Library.setError (Some "Failed to save recording") s /\
     Library.error s' = Some "Failed to save recording" /\
     Library.videos s' = Library.videos s /\
     Library.savedVideos s' = Library.savedVideos s /\
     Library.recordedVideos s' = Library.recordedVideos s /\
     Library.storageLog s' = Library.storageLog s) /\
  (Library.videos s' <> Library.videos s \/ Library.savedVideos s' <> Library.savedVideos s ->
   exists thumbnail videoRecord,
     generateThumbnail blob = Resolved thumbnail /\
     Library.savedVideos s'
       = Some (Library.getItem s ++ [Library.metadata_of videoRecord thumbnail]) /\
     RecordedVideo.thumbnail (Library.metadata_of videoRecord thumbnail) = Some thumbnail).
Proof.
  intros s' blob. split.
  - intros Hchunks e He. subst s'. unfold Library.saveRecording.
    destruct (Library.recordedChunksRef s) as [|chunk chunks]; [congruence|].
    fold blob. rewrite He. simpl. repeat split.
  - intros Hchanged.
    destruct (saveRecording_cases env recordingDuration s)
      as [(Hls & _ & Hvideos & _)
         | (videoRecord & thumbnail & Hthumb & _ & _ & _ & _ & Hls & _)].
    + fold s' in Hls, Hvideos. destruct Hchanged; congruence.
    + fold s' in Hls. exists thumbnail, videoRecord. auto.
Qed.

(** * Recording library: listing, deleting, playing, exporting *)

Lemma attachThumbnail_ids videoId thumbnail (l : list RecordedVideo.t) :
  List.map RecordedVideo.id (Library.attachThumbnail videoId thumbnail l)
  = List.map RecordedVideo.id l.
Proof.
  induction l as [|v l IH]; [reflexivity|].
  simpl. destruct (bool_decide (RecordedVideo.id v = videoId)); simpl; congruence.
Qed.

(** Opening the backfill requests touches neither list nor store. *)
Lemma backfill_open_requests_stores env (l : list RecordedVideo.t) (s : Library.State) :
  let s' := fold_left (Library.backfill_open_request env) l s in
  Library.savedVideos s' = Library.savedVideos s /\
  Library.recordedVideos s' = Library.recordedVideos s /\
  Library.videos s' = Library.videos s.
Proof.
  revert s. induction l as [|v l IH]; intros s; simpl; [auto|].
  destruct (IH (Library.backfill_open_request env s v)) as (H1 & H2 & H3).
  rewrite H1, H2, H3. unfold Library.backfill_open_request.
  destruct (Library.backfill_open (env (RecordedVideo.id v))); auto.
Qed.

(** The backfill handlers keep the two copies of the list equal to the
    shared array, keep its ids and leave the object store alone. *)
Lemma backfill_handlers_invariant env (l shared : list RecordedVideo.t) (s : Library.State) :
  Library.getItem s = shared -> Library.recordedVideos s = shared ->
  let r := fold_left (Library.backfill_request_onsuccess generateThumbnail env) l (shared, s) in
  Library.getItem (snd r) = fst r /\
  Library.recordedVideos (snd r) = fst r /\
  List.map RecordedVideo.id (fst r) = List.map RecordedVideo.id shared /\
  Library.videos (snd r) = Library.videos s.
Proof.
  revert shared s. induction l as [|v l IH]; intros shared s Hls Hmem; simpl; [auto|].
  set (acc := Library.backfill_request_onsuccess generateThumbnail env (shared, s) v).
  assert (Hacc : Library.getItem (snd acc) = fst acc /\
                 Library.recordedVideos (snd acc) = fst acc /\
                 List.map RecordedVideo.id (fst acc) = List.map RecordedVideo.id shared /\
                 Library.videos (snd acc) = Library.videos s).
  { subst acc. unfold Library.backfill_request_onsuccess, Library.backfill_get_onsuccess.
    simpl fst. simpl snd.
    destruct (Library.backfill_open (env (RecordedVideo.id v))); simpl; auto.
    destruct (Library.backfill_get (env (RecordedVideo.id v))); simpl; auto.
    destruct (Library.get _ _) as [videoRecord|]; simpl; auto.
    destruct (generateThumbnail (VideoRecord.data videoRecord)); simpl; auto.
    repeat split. apply attachThumbnail_ids. }
  destruct Hacc as (A1 & A2 & A3 & A4).
  destruct acc as [shared' s1]. simpl in A1, A2, A3, A4.
  destruct (IH shared' s1 A1 A2) as (B1 & B2 & B3 & B4).
  repeat split; auto; congruence.
Qed.

Lemma loadSavedVideos_list env (s : Library.State) :
  let s' := Library.loadSavedVideos generateThumbnail env s in
  Library.getItem s' = Library.recordedVideos s' /\
  List.map RecordedVideo.id (Library.recordedVideos s')
    = List.map RecordedVideo.id (Library.getItem s) /\
  Library.videos s' = Library.videos s.
Proof.
  unfold Library.loadSavedVideos. cbv zeta.
  set (l := List.filter Library.needsThumbnail (Library.getItem s)).
  destruct (backfill_open_requests_stores env l s) as (H1 & H2 & H3).
  set (s0 := fold_left (Library.backfill_open_request env) l s) in *.
  destruct (backfill_handlers_invariant env l (Library.getItem s)
              (Library.setRecordedVideos (Library.getItem s) s0)) as (B1 & B2 & B3 & B4).
  - unfold Library.getItem. simpl. now rewrite H1.
  - reflexivity.
  - simpl in B4. repeat split; congruence.
Qed.

Lemma filter_other_ids videoId (l : list RecordedVideo.t) v :
  In v (List.filter (fun v => bool_decide (RecordedVideo.id v <> videoId)) l) ->
  RecordedVideo.id v <> videoId.
Proof.
  intros Hin. apply filter_In in Hin as (_ & Hv). now apply bool_decide_eq_true_1 in Hv.
Qed.

(** C5.  Once [deleteVideo] has run to the completion of its transaction,
    the list in the key-value store and the in-memory list are the same
    list, namely the former in-memory list without the entries of that id;
    a following [loadSavedVideos] shows a list without that id, whatever the
    thumbnail backfill does, and leaves the two copies equal; and the object
    store has no record under the id, so that [get] finds nothing and
    [playVideo] opens no playback. *)
Theorem deleteVideo_then_list_and_get (videoId : jsstring) (s : Library.State) :
  let s1 := Library.deleteVideo Library.open_success Library.tx_complete videoId s in
  Library.savedVideos s1 = Some (Library.recordedVideos s1) /\
  Library.recordedVideos s1
    = List.filter (fun v => bool_decide (RecordedVideo.id v <> videoId))
                  (Library.recordedVideos s) /\
  (forall env v, In v (Library.list_videos generateThumbnail env s1) ->
                 RecordedVideo.id v <> videoId) /\
  (forall env, let s2 := Library.loadSavedVideos generateThumbnail env s1 in
               Library.getItem s2 = Library.recordedVideos s2 /\
               Library.get videoId s2 = None) /\
  Library.get videoId s1 = None /\
  (forall open req,
     Library.selectedVideo (Library.playVideo open req videoId s1)
     = Library.selectedVideo s1).
Proof.
  intros s1.
  assert (Hls : Library.savedVideos s1 = Some (Library.recordedVideos s1)) by reflexivity.
  assert (Hmem : Library.recordedVideos s1
            = List.filter (fun v => bool_decide (RecordedVideo.id v <> videoId))
                          (Library.recordedVideos s)) by reflexivity.
  assert (Hget : Library.get videoId s1 = None).
  { unfold Library.get. subst s1. simpl. apply lookup_delete_eq. }
  split; [exact Hls|]. split; [exact Hmem|]. split; [|split; [|split]].
  - intros env v Hin. unfold Library.list_videos in Hin.
    destruct (loadSavedVideos_list env s1) as (_ & Hids & _).
    apply (in_map RecordedVideo.id) in Hin. rewrite Hids in Hin.
    apply in_map_iff in Hin as (v' & Hid & Hin').
    unfold Library.getItem in Hin'. rewrite Hls in Hin'.
    change (In v' (Library.recordedVideos s1)) in Hin'. rewrite Hmem in Hin'. rewrite <- Hid. exact (filter_other_ids videoId _ v' Hin').
  - intros env s2. destruct (loadSavedVideos_list env s1) as (Hsame & _ & Hvideos).
    split; [exact Hsame|]. unfold Library.get. fold s2 in Hvideos. rewrite Hvideos.
    exact Hget.
  - exact Hget.
  - intros open req. unfold Library.playVideo.
    destruct open; [|reflexivity|reflexivity|reflexivity].
    destruct req; [|reflexivity].
    assert (Hsame : Library.get videoId
                      (Library.logged (Library.idb_get videoId)
                         (Library.logged Library.idb_open s1)) = None) by exact Hget.
    cbv zeta. rewrite Hsame. reflexivity.
Qed.

(** C9 (amended).  Playing or exporting a recording whose record is missing
    from the object store shows no message.  Once the database has opened,
    whether the object store answers the request with no record, the
    request itself fails, or the database has no object store at all, the
    call ends in silence: the error message and the success message are
    what they were, no playback opens and nothing is downloaded.  With the
    store there and the request answered, exactly the opening and the one
    request have reached the database; without the store, the opening
    alone. *)
Theorem missing_record_is_silent (videoId videoName : jsstring) (s : Library.State)
    (req : Library.RequestOutcome) :
  (Library.get videoId s = None ->
     let p := Library.playVideo Library.open_success req videoId s in
     let d := Library.downloadVideo Library.open_success req videoId videoName s in
     (Library.error p = Library.error s /\
      Library.successMessage p = Library.successMessage s /\
      Library.selectedVideo p = Library.selectedVideo s /\
      Library.downloads p = Library.downloads s) /\
     (Library.error d = Library.error s /\
      Library.successMessage d = Library.successMessage s /\
      Library.selectedVideo d = Library.selectedVideo s /\
      Library.downloads d = Library.downloads s) /\
     p = Library.logged (Library.idb_get videoId) (Library.logged Library.idb_open s) /\
     d = Library.logged (Library.idb_get videoId) (Library.logged Library.idb_open s)) /\
  (let p := Library.playVideo Library.open_without_store req videoId s in
   let d := Library.downloadVideo Library.open_without_store req videoId videoName s in
   (Library.error p = Library.error s /\
    Library.successMessage p = Library.successMessage s /\
    Library.selectedVideo p = Library.selectedVideo s /\
    Library.downloads p = Library.downloads s) /\
   (Library.error d = Library.error s /\
    Library.successMessage d = Library.successMessage s /\
    Library.selectedVideo d = Library.selectedVideo s /\
    Library.downloads d = Library.downloads s) /\
   p = Library.logged Library.idb_open s /\
   d = Library.logged Library.idb_open s).
Proof.
  split.
  - intros Hget.
    assert (Hsame : Library.get videoId
                      (Library.logged (Library.idb_get videoId)
                         (Library.logged Library.idb_open s)) = None) by exact Hget.
    unfold Library.playVideo, Library.downloadVideo. cbv zeta.
    destruct req; rewrite ?Hsame; simpl; repeat split.
  - cbv zeta. simpl. repeat split.
Qed.

End LibraryFacts.

(** The whole sequence does run: the first recording is written to the
    object store, then to the list. *)
Example saveRecording_first_recording :
  Library.get (str "video_1700000000000") oneSaved
    = Some {| VideoRecord.id := str "video_1700000000000";
              VideoRecord.name := str "Recording_11/14/2023, 10:13:20 PM";
              VideoRecord.timestamp := 1700000000100;
              VideoRecord.duration := 5;
              VideoRecord.size := 4;
              VideoRecord.data := clip |} /\
  List.map RecordedVideo.id (Library.recordedVideos oneSaved) = [str "video_1700000000000"] /\
  Library.savedVideos oneSaved = Some (Library.recordedVideos oneSaved) /\
  length (Library.storageLog oneSaved) = 4%nat.
Proof. vm_compute. repeat split. Qed.

Lemma saveRecording_metadata_after_write_witness :
  exists new,
    Library.storageLog oneSaved = Library.storageLog firstRecording ++ new /\
    (forall pre l post,
       new = pre ++ Library.ls_setItem l :: post ->
       exists videoRecord thumbnail,
         pre = [Library.idb_open; Library.idb_add videoRecord; Library.idb_complete] /\
         post = [] /\
         VideoRecord.data videoRecord
           = new_Blob (Library.recordedChunksRef firstRecording) "video/webm" /\
         Library.get (VideoRecord.id videoRecord) oneSaved = Some videoRecord /\
         l = Library.getItem firstRecording ++ [Library.metadata_of videoRecord thumbnail] /\
         Library.savedVideos oneSaved = Some l /\
         Library.recordedVideos oneSaved = l) /\
    ((forall l, ~ In (Library.ls_setItem l) new) ->
       Library.savedVideos oneSaved = Library.savedVideos firstRecording /\
       Library.recordedVideos oneSaved = Library.recordedVideos firstRecording).
Proof. exact (saveRecording_metadata_after_write thumbnailer allGoesWell 5 firstRecording). Defined.

Lemma saveRecording_thumbnail_rejected_witness :
  Library.recordedChunksRef firstRecording <> [] /\
  brokenThumbnailer (new_Blob (Library.recordedChunksRef firstRecording) "video/webm")
    = Rejected "Error loading video for thumbnail" /\
  Library.saveRecording brokenThumbnailer allGoesWell 5 firstRecording
    = Library.setError (Some "Failed to save recording") firstRecording.
Proof.
  split; [discriminate|]. split; [reflexivity|].
  apply (proj1 (saveRecording_thumbnail_rejected brokenThumbnailer allGoesWell 5 firstRecording)
           ltac:(discriminate) "Error loading video for thumbnail" eq_refl).
Defined.

Lemma deleteVideo_then_list_and_get_witness :
  Library.list_videos thumbnailer everythingAnswers
    (Library.deleteVideo Library.open_success Library.tx_complete
       (str "video_1700000000000") oneSaved) = [] /\
  Library.get (str "video_1700000000000")
    (Library.deleteVideo Library.open_success Library.tx_complete
       (str "video_1700000000000") oneSaved) = None.
Proof.
  split; [vm_compute; reflexivity|].
  apply (deleteVideo_then_list_and_get thumbnailer (str "video_1700000000000") oneSaved).
Defined.

Lemma missing_record_is_silent_witness :
  Library.get (str "video_1") orphanedEntry = None /\
  Library.playVideo Library.open_success Library.request_success (str "video_1") orphanedEntry
    = Library.logged (Library.idb_get (str "video_1"))
        (Library.logged Library.idb_open orphanedEntry) /\
  Library.error
    (Library.downloadVideo Library.open_without_store Library.request_success
       (str "video_1") (str "Recording_1") orphanedEntry) = Library.error orphanedEntry.
Proof.
  destruct (missing_record_is_silent (str "video_1") (str "Recording_1") orphanedEntry
              Library.request_success) as (Hmissing & Hstoreless).
  split; [reflexivity|]. split.
  - apply (Hmissing eq_refl).
  - apply Hstoreless.
Defined.

(** C9 as stated fails: the list shows the recording "video_1", its record
    is missing from the object store, and both playing and downloading it
    end without any message. *)
Lemma missing_record_message_counterexample :
  In (str "video_1") (List.map RecordedVideo.id (Library.recordedVideos orphanedEntry)) /\
  Library.get (str "video_1") orphanedEntry = None /\
  Library.error
    (Library.playVideo Library.open_success Library.request_success
       (str "video_1") orphanedEntry) = None /\
  Library.error
    (Library.downloadVideo Library.open_success Library.request_success
       (str "video_1") (str "Recording_1") orphanedEntry) = None /\
  Library.successMessage
    (Library.downloadVideo Library.open_success Library.request_success
       (str "video_1") (str "Recording_1") orphanedEntry) = None.
Proof. vm_compute. repeat split. now left. Qed.

(** The thumbnail of a ten-second and of a one-second clip, in exact
    arithmetic: sought at 1 s and at 1/2 s. *)
Example seekTarget_examples :
  Thumbnail.seekTarget (10 : Q) = (1 : Q) /\ Qeq (Thumbnail.seekTarget (1 : Q)) (1 # 2).
Proof. split; reflexivity. Qed.

(** * Further properties of the component *)

(** ** Overlay compositor: teardown and successive frames *)

Section CompositorMore.
Context {R : Type} {num : JSNumber R}.
Implicit Types (results : DetectionResult R) (s : Compositor.State R).

(** X1.  When a canvas, the video element or a 2d context is missing,
    [onResults] leaves everything as it was: nothing is drawn and the face
    indicator keeps its old value, whatever the result says. *)
Theorem onResults_unmounted results s :
  Compositor.canvasRef s = None \/
  Compositor.compositeCanvasRef s = None \/
  Compositor.videoRef s = None \/
  (exists canvas, Compositor.canvasRef s = Some canvas /\ context2d canvas = None) \/
  (exists canvas, Compositor.compositeCanvasRef s = Some canvas /\ context2d canvas = None) ->
  Compositor.onResults results s = s.
Proof.
  unfold Compositor.onResults.
  intros [Hc | [Hc | [Hc | [(c & Hc & Hctx) | (c & Hc & Hctx)]]]].
  - now rewrite Hc.
  - rewrite Hc. now destruct (Compositor.canvasRef s).
  - rewrite Hc. now destruct (Compositor.canvasRef s), (Compositor.compositeCanvasRef s).
  - rewrite Hc, Hctx.
    now destruct (Compositor.compositeCanvasRef s), (Compositor.videoRef s).
  - rewrite Hc, Hctx.
    destruct (Compositor.canvasRef s) as [c0|]; [|reflexivity].
    destruct (Compositor.videoRef s); [|reflexivity].
    now destruct (context2d c0).
Qed.

Lemma onResults_keeps_mounted results s ctx compositeCtx video :
  Compositor.mounted s ctx compositeCtx video ->
  Compositor.mounted (Compositor.onResults results s)
    (Compositor.overlayCalls (Compositor.onResults results s))
    (Compositor.compositeCalls (Compositor.onResults results s)) video.
Proof.
  intros (canvas & compositeCanvas & Hc & Hcc & Hv & Hctx & Hcctx).
  unfold Compositor.onResults, Compositor.overlayCalls, Compositor.compositeCalls,
    Compositor.mounted.
  rewrite Hc, Hcc, Hv, Hctx, Hcctx. simpl. eauto 10.
Qed.

Lemma shapes_no_clear_no_image w h results :
  count_calls is_clearRect (Compositor.shapes_of_result w h results) = 0%nat /\
  count_calls is_drawImage (Compositor.shapes_of_result w h results) = 0%nat.
Proof.
  assert (Hall : Forall (fun c => is_clearRect c = false /\ is_drawImage c = false)
                   (Compositor.shapes_of_result w h results)).
  { unfold Compositor.shapes_of_result. apply List.Forall_flat_map.
    apply List.Forall_forall. intros d _. unfold Compositor.shapes_of_detection.
    apply List.Forall_app. split; apply List.Forall_map, List.Forall_forall; intros; auto. }
  unfold count_calls. induction Hall as [|c l (Hc1 & Hc2) _ (IH1 & IH2)]; [auto|].
  simpl. now rewrite Hc1, Hc2.
Qed.

Lemma last_cons {A} (a d : A) (l : list A) : List.last (a :: l) d = List.last l a.
Proof.
  destruct l as [|b l]; [reflexivity|].
  change (List.last (a :: b :: l) d) with (List.last (b :: l) d).
  revert b. induction l as [|c l IH]; intros b; [reflexivity|].
  change (List.last (b :: c :: l) d) with (List.last (c :: l) d).
  change (List.last (b :: c :: l) a) with (List.last (c :: l) a).
  apply IH.
Qed.

(** X2.  Over any sequence of detection results handled with the surfaces
    mounted, the calls already issued are never altered, each frame adds
    exactly one clearing call to the overlay and exactly one painting of the
    video to the composite, the two surfaces receive the same number of
    rectangles, namely one per detection with a bounding box over all
    frames, and the face indicator ends as the last result has it. *)
Theorem onResults_frames (frames : list (DetectionResult R)) s ctx compositeCtx video :
  Compositor.mounted s ctx compositeCtx video ->
  let s' := fold_left (fun s results => Compositor.onResults results s) frames s in
  exists new newComposite,
    Compositor.mounted s' (ctx ++ new) (compositeCtx ++ newComposite) video /\
    count_calls is_clearRect new = length frames /\
    count_calls is_drawImage newComposite = length frames /\
    count_calls is_strokeRect new = list_sum (List.map Compositor.boxCount frames) /\
    count_calls is_strokeRect newComposite = list_sum (List.map Compositor.boxCount frames) /\
    Compositor.faceDetected s'
      = List.last (List.map (fun results => 0 <? Z.of_nat (length (detections results))) frames)
                  (Compositor.faceDetected s).
Proof.
  revert s ctx compositeCtx. induction frames as [|results frames IH];
    intros s ctx compositeCtx Hm; cbv zeta.
  - exists [], []. rewrite !app_nil_r. simpl. split; [exact Hm|]. repeat split.
  - simpl fold_left.
    pose proof (onResults_keeps_mounted results s ctx compositeCtx video Hm) as Hm1.
    destruct (onResults_mounted results s ctx compositeCtx video Hm) as (Ho & Hc & Hf).
    rewrite Ho, Hc in Hm1.
    destruct (IH _ _ _ Hm1) as (new & newc & Hm2 & H1 & H2 & H3 & H4 & H5).
    set (shapes := if 0 <? Z.of_nat (length (detections results))
                   then Compositor.shapes_of_result (num_of_Z (videoWidth video))
                          (num_of_Z (videoHeight video)) results
                   else []) in *.
    assert (Hshapes : count_calls is_clearRect shapes = 0%nat /\
                      count_calls is_drawImage shapes = 0%nat /\
                      count_calls is_strokeRect shapes = Compositor.boxCount results).
    { subst shapes. destruct (0 <? Z.of_nat (length (detections results))) eqn:Hfaces.
      - destruct (shapes_no_clear_no_image (num_of_Z (videoWidth video))
                    (num_of_Z (videoHeight video)) results) as (-> & ->).
        now rewrite count_strokeRect_result.
      - apply Z.ltb_ge in Hfaces. unfold Compositor.boxCount.
        destruct (detections results); [auto | simpl in Hfaces; lia]. }
    destruct Hshapes as (S1 & S2 & S3).
    eexists (_ :: shapes ++ new), (_ :: shapes ++ newc).
    rewrite <- !app_assoc in Hm2. simpl in Hm2.
    split; [exact Hm2|].
    change (?a :: shapes ++ ?l) with ([a] ++ shapes ++ l).
    rewrite !count_calls_app, S1, S2, S3, H1, H2, H3, H4.
    simpl map. rewrite last_cons, H5, Hf. simpl. auto.
Qed.

End CompositorMore.

Lemma onResults_unmounted_witness :
  Compositor.videoRef videoGone = None /\
  Compositor.onResults oneFace videoGone = videoGone.
Proof.
  split; [reflexivity|].
  apply (onResults_unmounted oneFace videoGone). right. right. left. reflexivity.
Defined.

Lemma onResults_frames_witness :
  Compositor.mounted mountedSurfaces [] [] camera /\
  Compositor.faceDetected
    (fold_left (fun s results => Compositor.onResults results s)
       [oneFace; noFace] mountedSurfaces) = false.
Proof.
  assert (Hm : Compositor.mounted mountedSurfaces [] [] camera)
    by (exists blankCanvas, blankCanvas; repeat split; reflexivity).
  split; [exact Hm|].
  destruct (onResults_frames [oneFace; noFace] mountedSurfaces [] [] camera Hm)
    as (new & newc & _ & _ & _ & _ & _ & Hf).
  exact Hf.
Defined.

(** ** Detection adapter start-up: how many attempts, and retries *)

Section InitMore.
Variable load : jsstring -> option string.

(** The two ways a start-up can end. *)
Lemma initializeFaceDetection_outcome (s : Init.State) :
  let s' := Init.initializeFaceDetection load s in
  (exists pre u post,
     Init.cdnUrls = pre ++ u :: post /\
     (forall v, In v pre -> load v <> None) /\ load u = None /\
     Init.tried s' = Init.tried s ++ pre ++ [u] /\
     Init.faceDetectionRef s' = Some (Init.newFaceDetection u) /\
     Init.error s' = None /\ Init.isLoading s' = false) \/
  ((forall u, In u Init.cdnUrls -> load u <> None) /\
   Init.tried s' = Init.tried s ++ Init.cdnUrls /\
   Init.faceDetectionRef s' = Init.faceDetectionRef s /\
   Init.error s' = Some "Failed to initialize face detection. Please check your internet connection and refresh the page." /\
   Init.isLoading s' = false).
Proof.
  intros s'.
  destruct (first_success_or_all_fail load Init.cdnUrls)
    as [Hall | (pre & u & post & Hurls & Hpre & Hu)].
  - right. split; [exact Hall|]. subst s'. unfold Init.initializeFaceDetection.
    cbn [Init.tried Init.error Init.faceDetectionRef Init.isLoading].
    destruct (tryEach_all_fail load Init.cdnUrls None None (Init.tried s) Hall)
      as [le' Hle']; [discriminate|].
    rewrite Hle'. simpl. repeat split.
  - left. exists pre, u, post.
    split; [exact Hurls|]. split; [exact Hpre|]. split; [exact Hu|].
    subst s'. unfold Init.initializeFaceDetection.
    cbn [Init.tried Init.error Init.faceDetectionRef Init.isLoading]. rewrite Hurls.
    destruct (tryEach_first_success load pre u post None None (Init.tried s) Hpre Hu)
      as [le' ->].
    simpl. repeat split.
Qed.

(** X3.  A start-up makes at least one and at most three attempts, at the
    locations of the list in order and each at most once, and every location
    tried before the last attempt had failed.  What it shows at the end, the
    error and the loading flag, depends on the network only and not on what
    an earlier start-up left behind: a retry that finds a location clears
    the old error. *)
Theorem initializeFaceDetection_attempts (s : Init.State) :
  let s' := Init.initializeFaceDetection load s in
  (exists k : nat,
     (1 <= k <= 3)%nat /\
     Init.tried s' = Init.tried s ++ firstn k Init.cdnUrls /\
     (forall u, In u (firstn (k - 1) Init.cdnUrls) -> load u <> None)) /\
  (forall s0 : Init.State,
     Init.error (Init.initializeFaceDetection load s0) = Init.error s' /\
     Init.isLoading (Init.initializeFaceDetection load s0) = Init.isLoading s').
Proof.
  intros s'. split.
  - destruct (initializeFaceDetection_outcome s)
      as [(pre & u & post & Hurls & Hpre & Hu & Htried & _) | (Hall & Htried & _)];
      fold s' in Htried.
    + assert (Hlen : length (pre ++ u :: post) = 3%nat) by (now rewrite <- Hurls).
      rewrite length_app in Hlen. simpl in Hlen.
      exists (length pre + 1)%nat. split; [lia|]. rewrite Hurls, Htried. split.
      * f_equal. rewrite List.firstn_app, List.firstn_all2 by lia.
        replace (length pre + 1 - length pre)%nat with 1%nat by lia. reflexivity.
      * replace (length pre + 1 - 1)%nat with (length pre) by lia.
        rewrite List.firstn_app, List.firstn_all, Nat.sub_diag. simpl.
        rewrite app_nil_r. exact Hpre.
    + exists 3%nat. split; [lia|]. split; [exact Htried|].
      intros u Hu. apply Hall. rewrite <- (List.firstn_skipn (3 - 1) Init.cdnUrls).
      apply in_or_app. now left.
  - intros s0.
    destruct (initializeFaceDetection_outcome s)
      as [(pre & u & post & Hurls & Hpre & Hu & _ & _ & He & Hl) | (Hall & _ & _ & He & Hl)];
    destruct (initializeFaceDetection_outcome s0)
      as [(pre0 & u0 & post0 & Hurls0 & Hpre0 & Hu0 & _ & _ & He0 & Hl0)
         | (Hall0 & _ & _ & He0 & Hl0)];
    fold s' in He, Hl; rewrite He, Hl, He0, Hl0; auto.
    + exfalso. apply (Hall0 u); [rewrite Hurls; apply in_or_app; right; now left | exact Hu].
    + exfalso. apply (Hall u0); [rewrite Hurls0; apply in_or_app; right; now left | exact Hu0].
Qed.

End InitMore.

Lemma initializeFaceDetection_attempts_witness :
  exists k : nat,
    (1 <= k <= 3)%nat /\
    Init.tried (Init.initializeFaceDetection onlyLatest uninitialised)
      = Init.tried uninitialised ++ firstn k Init.cdnUrls /\
    (forall u, In u (firstn (k - 1) Init.cdnUrls) -> onlyLatest u <> None).
Proof. exact (proj1 (initializeFaceDetection_attempts onlyLatest uninitialised)). Defined.

(** ** Capture manager: when the camera is asked for, and what it yields *)

(** X4.  The camera waits for face detection.  If every location failed in
    a start-up that had no instance before, [initializeCamera] does nothing
    at all: the user is not asked for the camera.  If some location answers
    and the elements are mounted, the device is requested exactly once, with
    an ideal size of 1280 by 720, the user-facing camera and audio. *)
Theorem camera_waits_for_detection (load : jsstring -> option string) (i : Init.State)
    (env : Camera.Env) (c : Camera.State) :
  Init.faceDetectionRef i = None ->
  Camera.faceDetectionRef c = Init.faceDetectionRef (Init.initializeFaceDetection load i) ->
  ((forall u, In u Init.cdnUrls -> load u <> None) ->
     Camera.initializeCamera env c = c) /\
  ((exists u, In u Init.cdnUrls /\ load u = None) ->
   (exists srcObject, Camera.videoRef c = Some srcObject) ->
   Camera.compositeCanvasRef c = true ->
     Camera.requested (Camera.initializeCamera env c)
     = Camera.requested c ++
       [ {| Camera.idealWidth := 1280; Camera.idealHeight := 720;
            Camera.facingMode := "user"; Camera.audio := true |} ]).
Proof.
  intros Hnone Hshared.
  destruct (initializeFaceDetection_outcome load i)
    as [(pre & u & post & Hurls & Hpre & Hu & _ & Href & _) | (Hall & _ & Href & _)];
    rewrite Href in Hshared.
  - split.
    + intros Hfail. exfalso. apply (Hfail u); [|exact Hu].
      rewrite Hurls. apply in_or_app. right. now left.
    + intros _ (srcObject & Hvideo) Hcanvas. unfold Camera.initializeCamera.
      rewrite Hshared, Hvideo, Hcanvas.
      destruct (Camera.getUserMedia env); [destruct (Camera.metadataLoads env)|]; reflexivity.
  - split.
    + intros _. unfold Camera.initializeCamera. now rewrite Hshared, Hnone.
    + intros (u & Hin & Hu). exfalso. now apply (Hall u).
Qed.

Lemma camera_waits_for_detection_witness :
  Init.faceDetectionRef uninitialised = None /\
  Camera.faceDetectionRef waitingForDetection
    = Init.faceDetectionRef (Init.initializeFaceDetection offline uninitialised) /\
  Camera.initializeCamera webcamWithMicrophone waitingForDetection = waitingForDetection.
Proof.
  split; [reflexivity|]. split; [reflexivity|].
  apply (camera_waits_for_detection offline uninitialised webcamWithMicrophone
           waitingForDetection eq_refl eq_refl).
  intros u _. discriminate.
Defined.

(** The camera can be asked for: detection is loaded, both elements are
    mounted. *)
Lemma camera_ready_cases (env : Camera.Env) (c : Camera.State) fd srcObject :
  Camera.faceDetectionRef c = Some fd ->
  Camera.videoRef c = Some srcObject ->
  Camera.compositeCanvasRef c = true ->
  Camera.initializeCamera env c
  = match Camera.getUserMedia env with
    | None =>
        {| Camera.faceDetectionRef := Some fd; Camera.videoRef := Some srcObject;
           Camera.compositeCanvasRef := true;
           Camera.error := Some "Failed to access camera. Please ensure camera permissions are granted.";
           Camera.streamRef := Camera.streamRef c;
           Camera.compositeStreamRef := Camera.compositeStreamRef c;
           Camera.cameraRef := Camera.cameraRef c;
           Camera.requested := Camera.requested c ++
             [ {| Camera.idealWidth := 1280; Camera.idealHeight := 720;
                  Camera.facingMode := "user"; Camera.audio := true |} ] |}
    | Some stream =>
        {| Camera.faceDetectionRef := Some fd; Camera.videoRef := Some (Some stream);
           Camera.compositeCanvasRef := true; Camera.error := None;
           Camera.streamRef := Some stream;
           Camera.compositeStreamRef :=
             if Camera.metadataLoads env
             then Some {| Recorder.frameRate := 30;
                          Recorder.hasAudioTrack :=
                            match Camera.audioTracks stream with
                            | [] => false | _ :: _ => true
                            end |}
             else Camera.compositeStreamRef c;
           Camera.cameraRef :=
             if Camera.metadataLoads env
             then Some {| Camera.loop_width := 1280; Camera.loop_height := 720;
                          Camera.started := true |}
             else Camera.cameraRef c;
           Camera.requested := Camera.requested c ++
             [ {| Camera.idealWidth := 1280; Camera.idealHeight := 720;
                  Camera.facingMode := "user"; Camera.audio := true |} ] |}
    end.
Proof.
  intros Hfd Hvideo Hcanvas. unfold Camera.initializeCamera.
  rewrite Hfd, Hvideo, Hcanvas.
  destruct (Camera.getUserMedia env); [destruct (Camera.metadataLoads env)|]; reflexivity.
Qed.

(** X5.  Without a composite stream before, one exists after
    [initializeCamera] exactly when the device was granted and the video
    element reached its metadata.  A refusal shows the camera message, and
    a start of the recording then ends in the "not ready" message with
    nothing recording; a device whose metadata never arrives stays acquired
    although no recording can start. *)
Theorem camera_refused_blocks_recording (env : Camera.Env) (c : Camera.State) fd srcObject
    (isTypeSupported : string -> bool) (canStart : Recorder.MediaStream -> bool)
    (nextInterval : Z) :
  Camera.faceDetectionRef c = Some fd ->
  Camera.videoRef c = Some srcObject ->
  Camera.compositeCanvasRef c = true ->
  Camera.compositeStreamRef c = None ->
  let c' := Camera.initializeCamera env c in
  let r := Recorder.startRecording isTypeSupported canStart nextInterval (Camera.recorder c') in
  (is_Some (Camera.compositeStreamRef c')
     <-> is_Some (Camera.getUserMedia env) /\ Camera.metadataLoads env = true) /\
  (Camera.getUserMedia env = None ->
     Camera.error c'
       = Some "Failed to access camera. Please ensure camera permissions are granted." /\
     Camera.streamRef c' = Camera.streamRef c /\ Camera.cameraRef c' = Camera.cameraRef c) /\
  (forall stream, Camera.getUserMedia env = Some stream ->
     Camera.streamRef c' = Some stream /\ Camera.error c' = None) /\
  (Camera.compositeStreamRef c' = None ->
     Recorder.error r
       = Some "Composite stream not ready. Please wait for camera initialization." /\
     Recorder.isRecording r = false /\ Recorder.mediaRecorderRef r = None).
Proof.
  intros Hfd Hvideo Hcanvas Hnone c' r. subst r c'.
  rewrite (camera_ready_cases env c fd srcObject Hfd Hvideo Hcanvas).
  unfold Recorder.startRecording, Camera.recorder.
  destruct (Camera.getUserMedia env) as [stream|];
    [destruct (Camera.metadataLoads env)|]; cbn; rewrite ?Hnone; cbn.
  - split; [split; [intros _; split; [eauto | reflexivity] | intros _; eauto]|].
    split; [discriminate|]. split; [intros ? [= <-]; auto | discriminate].
  - split; [split; [intros [x Hx]; discriminate | intros [_ Habs]; discriminate]|].
    split; [discriminate|]. split; [intros ? [= <-]; auto | auto].
  - split; [split; [intros [x Hx]; discriminate | intros [[x Hx] _]; discriminate]|].
    split; [auto|]. split; [discriminate | auto].
Qed.

Lemma camera_refused_blocks_recording_witness :
  Camera.faceDetectionRef readyForCamera
    = Some (Init.newFaceDetection
              (str "https://cdn.jsdelivr.net/npm/@mediapipe/face_detection@0.4.1646425229")) /\
  Camera.compositeStreamRef readyForCamera = None /\
  Recorder.isRecording
    (Recorder.startRecording (fun _ => true) (fun _ => true) 7
       (Camera.recorder (Camera.initializeCamera permissionDenied readyForCamera))) = false.
Proof.
  split; [reflexivity|]. split; [reflexivity|].
  apply (camera_refused_blocks_recording permissionDenied readyForCamera _ None
           (fun _ => true) (fun _ => true) 7 eq_refl eq_refl eq_refl eq_refl).
  reflexivity.
Defined.

(** X6.  When the device is granted and the metadata arrives, the stream
    handed to the recorder is the capture of the composite canvas at 30
    frames a second, with an audio track exactly when the device stream has
    one; the capture loop runs at 1280 by 720; and a recorder the browser
    accepts then records that very stream. *)
Theorem camera_granted_feeds_recorder (env : Camera.Env) (c : Camera.State) fd srcObject stream
    (isTypeSupported : string -> bool) (canStart : Recorder.MediaStream -> bool)
    (nextInterval : Z) :
  Camera.faceDetectionRef c = Some fd ->
  Camera.videoRef c = Some srcObject ->
  Camera.compositeCanvasRef c = true ->
  Camera.getUserMedia env = Some stream ->
  Camera.metadataLoads env = true ->
  let c' := Camera.initializeCamera env c in
  let r := Recorder.startRecording isTypeSupported canStart nextInterval (Camera.recorder c') in
  exists compositeStream,
    Camera.compositeStreamRef c' = Some compositeStream /\
    Recorder.frameRate compositeStream = 30 /\
    (Recorder.hasAudioTrack compositeStream = true <-> Camera.audioTracks stream <> []) /\
    Camera.cameraRef c'
      = Some {| Camera.loop_width := 1280; Camera.loop_height := 720;
                Camera.started := true |} /\
    (isTypeSupported "video/webm;codecs=vp9" = true -> canStart compositeStream = true ->
       Recorder.isRecording r = true /\
       Recorder.mediaRecorderRef r
         = Some {| Recorder.stream := compositeStream;
                   Recorder.mimeType := "video/webm;codecs=vp9";
                   Recorder.state := Recorder.recording |}).
Proof.
  intros Hfd Hvideo Hcanvas Hgranted Hmeta c' r. subst r c'.
  rewrite (camera_ready_cases env c fd srcObject Hfd Hvideo Hcanvas), Hgranted, Hmeta.
  eexists. split; [reflexivity|]. simpl. split; [reflexivity|]. split; [|split].
  - destruct (Camera.audioTracks stream); split; congruence.
  - reflexivity.
  - intros Hsup Hstart. unfold Recorder.startRecording. simpl.
    rewrite Hsup, Hstart. simpl. auto.
Qed.

Lemma camera_granted_feeds_recorder_witness :
  Camera.getUserMedia webcamWithMicrophone
    = Some {| Camera.videoTracks := [0%nat]; Camera.audioTracks := [1%nat] |} /\
  exists compositeStream,
    Camera.compositeStreamRef (Camera.initializeCamera webcamWithMicrophone readyForCamera)
      = Some compositeStream /\
    Recorder.frameRate compositeStream = 30.
Proof.
  split; [reflexivity|].
  destruct (camera_granted_feeds_recorder webcamWithMicrophone readyForCamera _ None _
              (fun _ => true) (fun _ => true) 7 eq_refl eq_refl eq_refl eq_refl eq_refl)
    as (compositeStream & Hstream & Hrate & _).
  exists compositeStream. split; [exact Hstream | exact Hrate].
Defined.

(** ** Recording controller: the counter, the buffer, stopping and restarting *)

Lemma tick_running (n : nat) (s : Recorder.State) i :
  Recorder.recordingIntervalRef s = Some i ->
  Nat.iter n Recorder.tick s
  = {| Recorder.isRecording := Recorder.isRecording s;
       Recorder.recordingDuration := Recorder.recordingDuration s + Z.of_nat n;
       Recorder.error := Recorder.error s;
       Recorder.compositeStreamRef := Recorder.compositeStreamRef s;
       Recorder.mediaRecorderRef := Recorder.mediaRecorderRef s;
       Recorder.recordedChunksRef := Recorder.recordedChunksRef s;
       Recorder.recordingIntervalRef := Some i |}.
Proof.
  intros Hi. induction n as [|n IH].
  - destruct s. simpl in *. rewrite Z.add_0_r. congruence.
  - rewrite Nat2Z.inj_succ. simpl. rewrite IH. unfold Recorder.tick. simpl.
    f_equal. lia.
Qed.

Lemma tick_cancelled (n : nat) (s : Recorder.State) :
  Recorder.recordingIntervalRef s = None -> Nat.iter n Recorder.tick s = s.
Proof.
  intros Hnone. induction n as [|n IH]; [reflexivity|].
  simpl. rewrite IH. unfold Recorder.tick. now rewrite Hnone.
Qed.

Lemma ondataavailable_all (datas : list Blob) (s : Recorder.State) :
  fold_left (fun s data => Recorder.ondataavailable data s) datas s
  = {| Recorder.isRecording := Recorder.isRecording s;
       Recorder.recordingDuration := Recorder.recordingDuration s;
       Recorder.error := Recorder.error s;
       Recorder.compositeStreamRef := Recorder.compositeStreamRef s;
       Recorder.mediaRecorderRef := Recorder.mediaRecorderRef s;
       Recorder.recordedChunksRef :=
         Recorder.recordedChunksRef s ++ List.filter (fun data => 0 <? blob_size data) datas;
       Recorder.recordingIntervalRef := Recorder.recordingIntervalRef s |}.
Proof.
  revert s. induction datas as [|data datas IH]; intros s.
  - destruct s. simpl. now rewrite app_nil_r.
  - simpl. rewrite IH. unfold Recorder.ondataavailable.
    destruct (0 <? blob_size data); simpl; [now rewrite <- app_assoc | reflexivity].
Qed.

(** X7.  Whatever the recorder hands over, the chunk buffer grows by exactly
    the chunks of positive size, in the order they arrived: empty chunks are
    dropped, nothing else is, and nothing already buffered is touched. *)
Theorem ondataavailable_buffers_nonempty (datas : list Blob) (s : Recorder.State) :
  let s' := fold_left (fun s data => Recorder.ondataavailable data s) datas s in
  Recorder.recordedChunksRef s'
    = Recorder.recordedChunksRef s ++ List.filter (fun data => 0 <? blob_size data) datas /\
  (Forall (fun chunk => 0 < blob_size chunk) (Recorder.recordedChunksRef s) ->
   Forall (fun chunk => 0 < blob_size chunk) (Recorder.recordedChunksRef s')) /\
  Recorder.isRecording s' = Recorder.isRecording s /\
  Recorder.recordingDuration s' = Recorder.recordingDuration s.
Proof.
  cbv zeta. rewrite ondataavailable_all. simpl. repeat split.
  intros Hold. apply List.Forall_app. split; [exact Hold|].
  apply List.Forall_forall. intros chunk Hin. apply filter_In in Hin as (_ & Hpos).
  now apply Z.ltb_lt.
Qed.

Section RecorderMore.
Variable isTypeSupported : string -> bool.
Variable canStart : Recorder.MediaStream -> bool.
Variable nextInterval : Z.

Lemma startRecording_accepted (s : Recorder.State) compositeStream :
  Recorder.compositeStreamRef s = Some compositeStream ->
  isTypeSupported "video/webm;codecs=vp9" = true ->
  canStart compositeStream = true ->
  Recorder.startRecording isTypeSupported canStart nextInterval s
  = {| Recorder.isRecording := true; Recorder.recordingDuration := 0;
       Recorder.error := Recorder.error s;
       Recorder.compositeStreamRef := Some compositeStream;
       Recorder.mediaRecorderRef :=
         Some {| Recorder.stream := compositeStream;
                 Recorder.mimeType := "video/webm;codecs=vp9";
                 Recorder.state := Recorder.recording |};
       Recorder.recordedChunksRef := [];
       Recorder.recordingIntervalRef := Some nextInterval |}.
Proof.
  intros Hstream Hsup Hstart. unfold Recorder.startRecording.
  now rewrite Hstream, Hsup, Hstart.
Qed.

(** X8.  After a start the browser accepted, the duration shown is the
    number of ticks of the interval since that start, whatever it was
    before, and the buffer holds only what arrived since. *)
Theorem startRecording_counts_from_zero (s : Recorder.State) compositeStream
    (n : nat) (datas : list Blob) :
  Recorder.compositeStreamRef s = Some compositeStream ->
  isTypeSupported "video/webm;codecs=vp9" = true ->
  canStart compositeStream = true ->
  let s' := fold_left (fun s data => Recorder.ondataavailable data s) datas
              (Nat.iter n Recorder.tick
                 (Recorder.startRecording isTypeSupported canStart nextInterval s)) in
  Recorder.recordingDuration s' = Z.of_nat n /\
  Recorder.recordedChunksRef s' = List.filter (fun data => 0 <? blob_size data) datas /\
  Recorder.isRecording s' = true.
Proof.
  intros Hstream Hsup Hstart. cbv zeta.
  rewrite (startRecording_accepted s compositeStream Hstream Hsup Hstart).
  erewrite tick_running by reflexivity. rewrite ondataavailable_all. simpl. auto.
Qed.

(** X9.  Stopping a running recording clears the recording flag, leaves the
    recorder inactive and cancels the interval, so that later ticks no
    longer move the duration; stopping while nothing records changes
    nothing; and the next accepted start begins again at zero with an empty
    buffer, dropping the chunks of the recording before. *)
Theorem stopRecording_then_restart (s : Recorder.State) compositeStream
    (n m : nat) (datas : list Blob) :
  Recorder.compositeStreamRef s = Some compositeStream ->
  isTypeSupported "video/webm;codecs=vp9" = true ->
  canStart compositeStream = true ->
  let running := fold_left (fun s data => Recorder.ondataavailable data s) datas
                   (Nat.iter n Recorder.tick
                      (Recorder.startRecording isTypeSupported canStart nextInterval s)) in
  let stopped := Recorder.stopRecording running in
  let again := Recorder.startRecording isTypeSupported canStart nextInterval
                 (Nat.iter m Recorder.tick stopped) in
  Recorder.isRecording stopped = false /\
  Recorder.recordingIntervalRef stopped = None /\
  Recorder.mediaRecorderRef stopped
    = Some {| Recorder.stream := compositeStream;
              Recorder.mimeType := "video/webm;codecs=vp9";
              Recorder.state := Recorder.inactive |} /\
  Recorder.recordedChunksRef stopped = Recorder.recordedChunksRef running /\
  Recorder.recordingDuration (Nat.iter m Recorder.tick stopped) = Z.of_nat n /\
  Recorder.stopRecording stopped = stopped /\
  Recorder.recordingDuration again = 0 /\
  Recorder.recordedChunksRef again = [] /\
  Recorder.isRecording again = true.
Proof.
  intros Hstream Hsup Hstart running stopped again.
  assert (Hrunning : running
    = {| Recorder.isRecording := true; Recorder.recordingDuration := Z.of_nat n;
         Recorder.error := Recorder.error s;
         Recorder.compositeStreamRef := Some compositeStream;
         Recorder.mediaRecorderRef :=
           Some {| Recorder.stream := compositeStream;
                   Recorder.mimeType := "video/webm;codecs=vp9";
                   Recorder.state := Recorder.recording |};
         Recorder.recordedChunksRef := List.filter (fun data => 0 <? blob_size data) datas;
         Recorder.recordingIntervalRef := Some nextInterval |}).
  { subst running.
    rewrite (startRecording_accepted s compositeStream Hstream Hsup Hstart).
    erewrite tick_running by reflexivity. rewrite ondataavailable_all. reflexivity. }
  assert (Hstopped : Nat.iter m Recorder.tick stopped = stopped).
  { apply tick_cancelled. subst stopped. now rewrite Hrunning. }
  subst again. rewrite Hstopped.
  rewrite (startRecording_accepted stopped compositeStream);
    [|subst stopped; now rewrite Hrunning|exact Hsup|exact Hstart].
  subst stopped. rewrite Hrunning. simpl. repeat split.
Qed.

(** X10.  A recording begins exactly when a composite stream exists, the
    browser accepts the codec and the recorder starts.  In every other case
    the error message is set and no recording begins: the recording flag,
    the duration and the interval are what they were. *)
Theorem startRecording_begins_iff (s : Recorder.State) :
  Recorder.isRecording s = false ->
  let s' := Recorder.startRecording isTypeSupported canStart nextInterval s in
  (Recorder.isRecording s' = true <->
     exists compositeStream,
       Recorder.compositeStreamRef s = Some compositeStream /\
       isTypeSupported "video/webm;codecs=vp9" = true /\
       canStart compositeStream = true) /\
  (Recorder.isRecording s' = false ->
     is_Some (Recorder.error s') /\
     Recorder.recordingDuration s' = Recorder.recordingDuration s /\
     Recorder.recordingIntervalRef s' = Recorder.recordingIntervalRef s).
Proof.
  intros Hidle s'. subst s'. unfold Recorder.startRecording.
  destruct (Recorder.compositeStreamRef s) as [compositeStream|] eqn:Hstream.
  - destruct (isTypeSupported "video/webm;codecs=vp9") eqn:Hsup; simpl.
    + destruct (canStart compositeStream) eqn:Hstart; simpl.
      * split; [split; [eauto | reflexivity] | discriminate].
      * rewrite Hidle. split; [|intros _; repeat split; eauto].
        split; [discriminate | intros (cs & H1 & H2 & H3); congruence].
    + rewrite Hidle. split; [|intros _; repeat split; eauto].
      split; [discriminate | intros (cs & H1 & H2 & H3); congruence].
  - simpl. rewrite Hidle. split; [|intros _; repeat split; eauto].
    split; [discriminate | intros (cs & H1 & H2 & H3); congruence].
Qed.

End RecorderMore.

Lemma startRecording_counts_from_zero_witness :
  Recorder.compositeStreamRef idleWithStream
    = Some {| Recorder.frameRate := 30; Recorder.hasAudioTrack := true |} /\
  Recorder.recordingDuration
    (fold_left (fun s data => Recorder.ondataavailable data s) [clip]
       (Nat.iter 5 Recorder.tick
          (Recorder.startRecording (fun _ => true) (fun _ => true) 7 idleWithStream)))
    = 5.
Proof.
  split; [reflexivity|].
  apply (startRecording_counts_from_zero (fun _ => true) (fun _ => true) 7 idleWithStream
           _ 5 [clip] eq_refl eq_refl eq_refl).
Defined.

Lemma stopRecording_then_restart_witness :
  Recorder.compositeStreamRef idleWithStream
    = Some {| Recorder.frameRate := 30; Recorder.hasAudioTrack := true |} /\
  Recorder.isRecording
    (Recorder.stopRecording
       (fold_left (fun s data => Recorder.ondataavailable data s) [clip]
          (Nat.iter 5 Recorder.tick
             (Recorder.startRecording (fun _ => true) (fun _ => true) 7 idleWithStream))))
    = false.
Proof.
  split; [reflexivity|].
  apply (stopRecording_then_restart (fun _ => true) (fun _ => true) 7 idleWithStream
           _ 5 3 [clip] eq_refl eq_refl eq_refl).
Defined.

Lemma startRecording_begins_iff_witness :
  Recorder.isRecording idleWithoutStream = false /\
  (Recorder.isRecording
     (Recorder.startRecording (fun _ => true) (fun _ => true) 7 idleWithoutStream) = false ->
   is_Some (Recorder.error
     (Recorder.startRecording (fun _ => true) (fun _ => true) 7 idleWithoutStream))).
Proof.
  split; [reflexivity|]. intros Hidle.
  apply (startRecording_begins_iff (fun _ => true) (fun _ => true) 7 idleWithoutStream
           eq_refl). exact Hidle.
Defined.

(** ** Thumbnail generator: what the promise can become *)

Section ThumbnailMore.
Context {R : Type} {num : JSNumber R}.
Variable toDataURL : Canvas R -> jsstring.
Variable blob : Blob.

Lemma run_not_listening evs (st : Thumbnail.State R) :
  Thumbnail.listening st = false -> Thumbnail.run toDataURL evs st = st.
Proof.
  intros Hl. induction evs as [|ev evs IH] using rev_ind; [reflexivity|].
  rewrite run_snoc, IH. unfold Thumbnail.deliver. now rewrite Hl.
Qed.

(** X11.  When the canvas hands out no 2d context, no listener is
    registered and the video element is never given the blob: the promise is
    rejected with "Could not get canvas context" and stays so whatever
    happens, and nothing is captured. *)
Theorem generateThumbnail_without_context (evs : list (Thumbnail.MediaEvent R)) :
  Thumbnail.run toDataURL evs (Thumbnail.start false blob) = Thumbnail.start false blob /\
  Thumbnail.generateThumbnail toDataURL false evs blob
    = Rejected "Could not get canvas context" /\
  src (Thumbnail.video (Thumbnail.run toDataURL evs (Thumbnail.start false blob))) = NoSource /\
  Thumbnail.captured (Thumbnail.run toDataURL evs (Thumbnail.start false blob)) = [].
Proof.
  unfold Thumbnail.generateThumbnail.
  rewrite (run_not_listening evs (Thumbnail.start false blob) eq_refl).
  repeat split.
Qed.

Lemma run_resolved evs (st : Thumbnail.State R) t :
  Thumbnail.promise st = Resolved t ->
  Thumbnail.promise (Thumbnail.run toDataURL evs st) = Resolved t.
Proof.
  revert st. induction evs as [|ev evs IH]; intros st Hres; [exact Hres|].
  simpl. apply IH. unfold Thumbnail.deliver.
  destruct (Thumbnail.listening st); simpl; [|exact Hres].
  destruct ev as [d w h | | ].
  - destruct (duration (Thumbnail.video st)); simpl; exact Hres.
  - destruct (seeking (Thumbnail.video st)); simpl; [|exact Hres]. now rewrite Hres.
  - simpl. now rewrite Hres.
Qed.

(** X12.  The promise is settled once: after it has been resolved or
    rejected, no further event of the video element changes it. *)
Theorem generateThumbnail_settles_once hasContext (evs later : list (Thumbnail.MediaEvent R)) :
  Thumbnail.generateThumbnail toDataURL hasContext evs blob <> Pending ->
  Thumbnail.generateThumbnail toDataURL hasContext (evs ++ later) blob
  = Thumbnail.generateThumbnail toDataURL hasContext evs blob.
Proof.
  unfold Thumbnail.generateThumbnail, Thumbnail.run. rewrite fold_left_app.
  fold (Thumbnail.run toDataURL evs (Thumbnail.start hasContext blob)).
  set (st := Thumbnail.run toDataURL evs (Thumbnail.start hasContext blob)).
  fold (Thumbnail.run toDataURL later st).
  destruct (Thumbnail.promise st) as [|t|e] eqn:Hp; intros Hsettled.
  - congruence.
  - now apply run_resolved.
  - now apply (run_rejected toDataURL).
Qed.

Lemma unresolved_reject (p : Promise jsstring) e :
  Thumbnail.unresolved p -> Thumbnail.unresolved (reject e p).
Proof. intros Hp t. destruct p; simpl; [discriminate | apply Hp | discriminate]. Qed.

Lemma phase_start hasContext : Thumbnail.phase toDataURL blob [] (Thumbnail.start hasContext blob).
Proof.
  destruct hasContext.
  - right. left. simpl. repeat split. intros t. discriminate.
  - left. simpl. split; [reflexivity|]. intros t. discriminate.
Qed.

Lemma phase_deliver evs ev (st : Thumbnail.State R) :
  Thumbnail.phase toDataURL blob evs st ->
  Thumbnail.phase toDataURL blob (evs ++ [ev]) (Thumbnail.deliver toDataURL st ev).
Proof.
  assert (Hin : forall e, In e evs -> In e (evs ++ [ev]))
    by (intros e He; apply in_or_app; now left).
  unfold Thumbnail.deliver.
  intros [(Hl & Hp) | [(Hl & Hd & Hs & Hsrc & Hctx & Hp)
        | [(d & w & h & Hm & Hl & Hv & Hc & Hp)
        | (d & w & h & Hm & Hl & Hv & Hc & Hr & Hp)]]]; rewrite Hl; simpl.
  - left. auto.
  - destruct ev as [d w h | | ].
    + rewrite Hd. right. right. left. exists d, w, h.
      split; [apply in_or_app; right; now left|].
      unfold Thumbnail.on_loadedmetadata, Thumbnail.sought, Thumbnail.thumbnailCanvas.
      simpl. rewrite Hsrc, Hctx. auto.
    + rewrite Hs. right. left. auto 10.
    + right. left. simpl. repeat split; auto. now apply unresolved_reject.
  - rewrite Hv. simpl. destruct ev as [d' w' h' | | ].
    + right. right. left. exists d, w, h. rewrite Hv. auto 10.
    + right. right. right. exists d, w, h. split; [auto|].
      unfold Thumbnail.on_seeked. simpl. rewrite Hc. simpl.
      split; [reflexivity|]. split; [reflexivity|]. split; [reflexivity|].
      split; [reflexivity|].
      destruct (Thumbnail.promise st) as [|t|e] eqn:Hpr; simpl.
      * left. reflexivity.
      * exfalso. now apply (Hp t).
      * right. eauto.
    + right. right. left. exists d, w, h. simpl. rewrite Hv.
      split; [auto|]. repeat split; auto. now apply unresolved_reject.
  - rewrite Hv. simpl. destruct ev as [d' w' h' | | ].
    + right. right. right. exists d, w, h. rewrite Hv. auto 10.
    + right. right. right. exists d, w, h. rewrite Hv. auto 10.
    + right. right. right. exists d, w, h. simpl. rewrite Hv.
      split; [auto|]. repeat split; auto.
      destruct Hp as [Hp | (e & Hp)]; rewrite Hp; simpl; eauto.
Qed.

Lemma phase_run hasContext evs :
  Thumbnail.phase toDataURL blob evs
    (Thumbnail.run toDataURL evs (Thumbnail.start hasContext blob)).
Proof.
  induction evs as [|ev evs IH] using rev_ind.
  - apply phase_start.
  - rewrite run_snoc. now apply phase_deliver.
Qed.

(** X13.  Whatever events the browser fires, a thumbnail the promise is
    resolved with is the encoding of a canvas of 160 by 90 on which exactly
    one call was made: the painting, over the whole canvas, of the video
    element loaded from the blob, at the time [min(1, d/2)] for the duration
    [d] its metadata announced, with no seek under way.  By then the object
    URL has been revoked. *)
Theorem generateThumbnail_resolved_value hasContext (evs : list (Thumbnail.MediaEvent R)) t :
  Thumbnail.generateThumbnail toDataURL hasContext evs blob = Resolved t ->
  exists d w h,
    In (Thumbnail.loadedmetadata d w h) evs /\
    t = toDataURL
          {| canvas_width := 160; canvas_height := 90;
             context2d :=
               Some [ drawImage
                        {| src := ObjectURL blob; videoWidth := w; videoHeight := h;
                           duration := Some d;
                           currentTime := num_min (num_of_Z 1) (num_div d (num_of_Z 2));
                           seeking := false |}
                        (num_of_Z 0) (num_of_Z 0) (num_of_Z 160) (num_of_Z 90) ] |} /\
    Thumbnail.revoked (Thumbnail.run toDataURL evs (Thumbnail.start hasContext blob)) = true.
Proof.
  unfold Thumbnail.generateThumbnail. intros Hres.
  destruct (phase_run hasContext evs)
    as [(_ & Hp) | [(_ & _ & _ & _ & _ & Hp)
        | [(d & w & h & _ & _ & _ & _ & Hp)
        | (d & w & h & Hm & _ & _ & Hc & Hr & Hp)]]];
    try (exfalso; now apply (Hp t)).
  exists d, w, h. split; [exact Hm|]. split; [|exact Hr].
  destruct Hp as [Hp | (e & Hp)]; [|congruence].
  rewrite Hp in Hres. injection Hres as <-. now rewrite Hc.
Qed.

End ThumbnailMore.

Lemma generateThumbnail_settles_once_witness :
  Thumbnail.generateThumbnail encoder true [Thumbnail.error] clip <> Pending /\
  Thumbnail.generateThumbnail encoder true
    ([Thumbnail.error] ++ [Thumbnail.loadedmetadata (5 : Q) 1280 720; Thumbnail.seeked]) clip
  = Thumbnail.generateThumbnail encoder true [Thumbnail.error] clip.
Proof.
  assert (Hsettled : Thumbnail.generateThumbnail encoder true [Thumbnail.error] clip <> Pending)
    by discriminate.
  split; [exact Hsettled|].
  apply (generateThumbnail_settles_once encoder clip true [Thumbnail.error]
           [Thumbnail.loadedmetadata (5 : Q) 1280 720; Thumbnail.seeked] Hsettled).
Defined.

Lemma generateThumbnail_resolved_value_witness :
  thumbnailer clip = Resolved (str "data:image/jpeg;base64,AA") /\
  exists d w h,
    In (Thumbnail.loadedmetadata d w h)
       [Thumbnail.loadedmetadata (5 : Q) 1280 720; Thumbnail.seeked] /\
    Thumbnail.revoked
      (Thumbnail.run encoder [Thumbnail.loadedmetadata (5 : Q) 1280 720; Thumbnail.seeked]
         (Thumbnail.start true clip)) = true.
Proof.
  split; [reflexivity|].
  destruct (generateThumbnail_resolved_value encoder clip true
              [Thumbnail.loadedmetadata (5 : Q) 1280 720; Thumbnail.seeked]
              (str "data:image/jpeg;base64,AA") eq_refl) as (d & w & h & Hin & _ & Hrev).
  exists d, w, h. split; [exact Hin | exact Hrev].
Defined.

(** ** Recording library: what a save leaves behind *)

Section LibraryMore.
Variable generateThumbnail : Blob -> Promise jsstring.

Lemma blob_size_new_Blob (parts : list Blob) (type : string) :
  blob_size (new_Blob parts type) = fold_right Z.add 0 (List.map blob_size parts).
Proof.
  unfold blob_size, new_Blob. simpl.
  induction parts as [|part parts IH]; [reflexivity|].
  simpl. rewrite length_app, Nat2Z.inj_add, IH. reflexivity.
Qed.

Lemma attachThumbnail_core videoId thumbnail (l : list RecordedVideo.t) :
  List.map (fun v => (RecordedVideo.id v, RecordedVideo.name v, RecordedVideo.timestamp v,
                      RecordedVideo.duration v, RecordedVideo.size v))
           (Library.attachThumbnail videoId thumbnail l)
  = List.map (fun v => (RecordedVideo.id v, RecordedVideo.name v, RecordedVideo.timestamp v,
                        RecordedVideo.duration v, RecordedVideo.size v)) l.
Proof.
  induction l as [|v l IH]; [reflexivity|].
  simpl. destruct (bool_decide (RecordedVideo.id v = videoId)); simpl; congruence.
Qed.

(** The backfill changes thumbnails only. *)
Lemma backfill_handlers_core env (l shared : list RecordedVideo.t) (s : Library.State) :
  List.map (fun v => (RecordedVideo.id v, RecordedVideo.name v, RecordedVideo.timestamp v,
                      RecordedVideo.duration v, RecordedVideo.size v))
    (fst (fold_left (Library.backfill_request_onsuccess generateThumbnail env) l (shared, s)))
  = List.map (fun v => (RecordedVideo.id v, RecordedVideo.name v, RecordedVideo.timestamp v,
                        RecordedVideo.duration v, RecordedVideo.size v)) shared.
Proof.
  revert shared s. induction l as [|v l IH]; intros shared s; [reflexivity|].
  simpl.
  destruct (Library.backfill_request_onsuccess generateThumbnail env (shared, s) v)
    as [shared' s'] eqn:Hstep.
  rewrite IH.
  unfold Library.backfill_request_onsuccess, Library.backfill_get_onsuccess in Hstep.
  simpl in Hstep.
  destruct (Library.backfill_open (env (RecordedVideo.id v)));
    [|injection Hstep as <- _; reflexivity|injection Hstep as <- _; reflexivity
     |injection Hstep as <- _; reflexivity].
  destruct (Library.backfill_get (env (RecordedVideo.id v)));
    [|injection Hstep as <- _; reflexivity].
  destruct (Library.get _ _) as [videoRecord|]; [|injection Hstep as <- _; reflexivity].
  destruct (generateThumbnail (VideoRecord.data videoRecord));
    injection Hstep as <- _; try reflexivity.
  apply attachThumbnail_core.
Qed.

Lemma loadSavedVideos_core env (s : Library.State) :
  List.map (fun v => (RecordedVideo.id v, RecordedVideo.name v, RecordedVideo.timestamp v,
                      RecordedVideo.duration v, RecordedVideo.size v))
    (Library.list_videos generateThumbnail env s)
  = List.map (fun v => (RecordedVideo.id v, RecordedVideo.name v, RecordedVideo.timestamp v,
                        RecordedVideo.duration v, RecordedVideo.size v)) (Library.getItem s).
Proof.
  unfold Library.list_videos, Library.loadSavedVideos. cbv zeta.
  set (l := List.filter Library.needsThumbnail (Library.getItem s)).
  destruct (backfill_open_requests_stores env l s) as (H1 & _ & _).
  set (s0 := fold_left (Library.backfill_open_request env) l s) in *.
  destruct (backfill_handlers_invariant generateThumbnail env l (Library.getItem s)
              (Library.setRecordedVideos (Library.getItem s) s0)) as (_ & B2 & _).
  - unfold Library.getItem. simpl. now rewrite H1.
  - reflexivity.
  - rewrite B2. apply backfill_handlers_core.
Qed.

(** X14.  A save that runs to the end can be read back.  The object store
    then holds, under the id made of "video_" and the clock value read at the
    call, a record with the whole payload, whose size is the sum of the
    sizes of the buffered chunks and whose duration is the value the closure
    captured; every other record is as before; and a following
    [loadSavedVideos] shows the old entries followed by one entry with that
    id, name, timestamp, duration and size, whatever the thumbnail backfill
    does.  No message is shown. *)
Theorem saveRecording_then_list (env : Library.SaveEnv) (recordingDuration : Z)
    (s : Library.State) thumbnail :
  let blob := new_Blob (Library.recordedChunksRef s) "video/webm" in
  let videoId := str "video_" ++ decimal (Library.now_called env) in
  Library.recordedChunksRef s <> [] ->
  generateThumbnail blob = Resolved thumbnail ->
  Library.save_open env = Library.open_success ->
  Library.save_tx env = Library.tx_complete ->
  Library.get videoId s = None ->
  let s' := Library.saveRecording generateThumbnail env recordingDuration s in
  Library.get videoId s'
    = Some {| VideoRecord.id := videoId;
              VideoRecord.name := str "Recording_" ++ Library.localeString env;
              VideoRecord.timestamp := Library.now_opened env;
              VideoRecord.duration := recordingDuration;
              VideoRecord.size :=
                fold_right Z.add 0 (List.map blob_size (Library.recordedChunksRef s));
              VideoRecord.data := blob |} /\
  (forall id, id <> videoId -> Library.get id s' = Library.get id s) /\
  (forall benv,
     List.map (fun v => (RecordedVideo.id v, RecordedVideo.name v, RecordedVideo.timestamp v,
                         RecordedVideo.duration v, RecordedVideo.size v))
       (Library.list_videos generateThumbnail benv s')
     = List.map (fun v => (RecordedVideo.id v, RecordedVideo.name v, RecordedVideo.timestamp v,
                           RecordedVideo.duration v, RecordedVideo.size v)) (Library.getItem s)
       ++ [ (videoId, str "Recording_" ++ Library.localeString env, Library.now_opened env,
             recordingDuration,
             fold_right Z.add 0 (List.map blob_size (Library.recordedChunksRef s))) ]) /\
  Library.savedVideos s' = Some (Library.recordedVideos s') /\
  Library.error s' = Library.error s.
Proof.
  intros blob videoId Hchunks Hthumb Hopen Htx Hfree s'.
  assert (Hs' : s' = Library.save_request_onsuccess env videoId blob thumbnail
                       recordingDuration (Library.logged Library.idb_open s)).
  { subst s'. unfold Library.saveRecording.
    destruct (Library.recordedChunksRef s) as [|chunk chunks] eqn:Hc; [congruence|].
    fold blob. rewrite Hthumb, Hopen. reflexivity. }
  unfold Library.save_request_onsuccess, Library.add_record in Hs'.
  rewrite Htx in Hs'. cbn [Library.logged Library.videos VideoRecord.id] in Hs'.
  unfold Library.get in Hfree. rewrite Hfree in Hs'.
  rewrite <- (blob_size_new_Blob (Library.recordedChunksRef s) "video/webm"). fold blob.
  split; [|split; [|split; [|split]]].
  - rewrite Hs'. unfold Library.get. simpl. apply lookup_insert_eq.
  - intros id Hid. rewrite Hs'. unfold Library.get. simpl.
    now apply lookup_insert_ne.
  - intros benv. rewrite loadSavedVideos_core. rewrite Hs'.
    unfold Library.getItem. simpl. rewrite List.map_app. reflexivity.
  - rewrite Hs'. reflexivity.
  - rewrite Hs'. reflexivity.
Qed.

(** X15.  A save that gets past the thumbnail but not to the end is lost in
    silence.  When the request opening the database fails, or when the
    transaction aborts or the id is already taken in the object store, as
    for two saves within one millisecond, nothing is shown to the user and
    neither the object store nor either copy of the list changes; the same
    holds while the thumbnail promise stays pending.  With an empty chunk
    buffer the call does nothing at all. *)
Theorem saveRecording_lost_silently (env : Library.SaveEnv) (recordingDuration : Z)
    (s : Library.State) :
  let blob := new_Blob (Library.recordedChunksRef s) "video/webm" in
  let videoId := str "video_" ++ decimal (Library.now_called env) in
  let s' := Library.saveRecording generateThumbnail env recordingDuration s in
  (Library.recordedChunksRef s = [] -> s' = s) /\
  (generateThumbnail blob = Pending \/
   (exists thumbnail, generateThumbnail blob = Resolved thumbnail) /\
   (Library.save_open env = Library.open_error \/
    Library.save_open env = Library.open_success /\
    (Library.save_tx env = Library.tx_abort \/ is_Some (Library.get videoId s))) ->
   Library.error s' = Library.error s /\
   Library.successMessage s' = Library.successMessage s /\
   Library.videos s' = Library.videos s /\
   Library.savedVideos s' = Library.savedVideos s /\
   Library.recordedVideos s' = Library.recordedVideos s).
Proof.
  intros blob videoId s'. subst s'. unfold Library.saveRecording. split.
  - intros ->. reflexivity.
  - intros Hcase.
    destruct (Library.recordedChunksRef s) as [|chunk chunks] eqn:Hc; [repeat split|].
    fold blob in Hcase |- *.
    destruct Hcase as [-> | ((thumbnail & ->) & Hcase)]; [repeat split|].
    destruct Hcase as [Hopen | (Hopen & Hcase)]; rewrite Hopen; [repeat split|].
    unfold Library.save_request_onsuccess, Library.add_record.
    cbn [Library.logged Library.videos VideoRecord.id].
    destruct Hcase as [Htx | [taken Htaken]].
    + rewrite Htx. repeat split.
    + unfold Library.get in Htaken. fold videoId. rewrite Htaken.
      destruct (Library.save_tx env); repeat split.
Qed.

(** ** Recording library: deleting, playing and exporting *)

(** X16.  [deleteVideo] never touches a record under another id.  Unless
    its transaction completes, the record it aimed at stays as well and
    neither copy of the list changes; a message is shown only when opening
    the database throws.  When it completes for an id the in-memory list
    does not have, the in-memory list stays as it is and is written to the
    key-value store over whatever that held. *)
Theorem deleteVideo_only_that_record (videoId : jsstring) (s : Library.State) :
  (forall open tx id, id <> videoId ->
     Library.get id (Library.deleteVideo open tx videoId s) = Library.get id s) /\
  (forall open tx,
     open <> Library.open_success \/ tx = Library.tx_abort ->
     let s' := Library.deleteVideo open tx videoId s in
     Library.videos s' = Library.videos s /\
     Library.savedVideos s' = Library.savedVideos s /\
     Library.recordedVideos s' = Library.recordedVideos s) /\
  (~ In videoId (List.map RecordedVideo.id (Library.recordedVideos s)) ->
     let s' := Library.deleteVideo Library.open_success Library.tx_complete videoId s in
     Library.recordedVideos s' = Library.recordedVideos s /\
     Library.savedVideos s' = Some (Library.recordedVideos s)).
Proof.
  split; [|split].
  - intros open tx id Hid. unfold Library.get, Library.deleteVideo.
    destruct open; [|reflexivity|reflexivity|reflexivity].
    unfold Library.delete_request_onsuccess, Library.delete_record.
    destruct tx; [|reflexivity]. simpl. now apply lookup_delete_ne.
  - intros open tx Hcase. unfold Library.deleteVideo.
    destruct open; [|repeat split|repeat split|repeat split].
    destruct Hcase as [Habs | ->]; [congruence|]. repeat split.
  - intros Hnew. cbv zeta.
    assert (Hsame : List.filter (fun v => bool_decide (RecordedVideo.id v <> videoId))
                      (Library.recordedVideos s) = Library.recordedVideos s).
    { induction (Library.recordedVideos s) as [|v l IH]; [reflexivity|].
      simpl in Hnew |- *. rewrite bool_decide_eq_true_2 by tauto.
      f_equal. apply IH. tauto. }
    unfold Library.deleteVideo, Library.delete_request_onsuccess, Library.delete_record,
      Library.delete_transaction_oncomplete.
    simpl. rewrite Hsame. auto.
Qed.

(** X17.  [playVideo] and [downloadVideo] write no record and no list:
    whatever the browser answers, the records of the object store, both
    copies of the list and the chunk buffer are as before, [playVideo]
    starts no download and [downloadVideo] no playback.  On a database that
    has no object store, which their own opening creates when the database
    is absent, they stop after the opening: no record is requested, nothing
    is played or downloaded and no message is shown. *)
Theorem play_and_download_write_no_record (open : Library.OpenOutcome)
    (req : Library.RequestOutcome) (videoId videoName : jsstring) (s : Library.State) :
  let p := Library.playVideo open req videoId s in
  let d := Library.downloadVideo open req videoId videoName s in
  (Library.videos p = Library.videos s /\ Library.savedVideos p = Library.savedVideos s /\
   Library.recordedVideos p = Library.recordedVideos s /\
   Library.recordedChunksRef p = Library.recordedChunksRef s /\
   Library.downloads p = Library.downloads s) /\
  (Library.videos d = Library.videos s /\ Library.savedVideos d = Library.savedVideos s /\
   Library.recordedVideos d = Library.recordedVideos s /\
   Library.recordedChunksRef d = Library.recordedChunksRef s /\
   Library.selectedVideo d = Library.selectedVideo s) /\
  (open = Library.open_without_store ->
   p = Library.logged Library.idb_open s /\ d = Library.logged Library.idb_open s).
Proof.
  unfold Library.playVideo, Library.downloadVideo, Library.play_get_onsuccess,
    Library.download_get_onsuccess.
  destruct open, req; cbv zeta;
    try destruct (Library.get videoId _) as [video|]; simpl; repeat split;
    discriminate.
Qed.

Lemma play_and_download_write_no_record_witness :
  Library.playVideo Library.open_without_store Library.request_success
    (str "video_1") orphanedEntry
  = Library.logged Library.idb_open orphanedEntry.
Proof.
  apply (play_and_download_write_no_record Library.open_without_store Library.request_success
           (str "video_1") (str "Recording_1") orphanedEntry).
  reflexivity.
Defined.

(** X18.  When the record is in the object store and the requests succeed,
    [playVideo] opens the playback on the payload of that record, and
    [downloadVideo] hands exactly one file to the browser, the payload of
    that record under the name made from the display name, and announces it
    as "Downloaded: " followed by the display name; neither shows an
    error. *)
Theorem play_and_download_found (videoId videoName : jsstring) (s : Library.State) video :
  Library.get videoId s = Some video ->
  let p := Library.playVideo Library.open_success Library.request_success videoId s in
  let d := Library.downloadVideo Library.open_success Library.request_success
             videoId videoName s in
  Library.selectedVideo p = Some (VideoRecord.data video) /\
  Library.error p = Library.error s /\
  Library.downloads d
    = Library.downloads s ++
      [ {| Library.href := VideoRecord.data video;
           Library.download := downloadName videoName |} ] /\
  Library.successMessage d = Some (str "Downloaded: " ++ videoName) /\
  Library.error d = Library.error s.
Proof.
  intros Hget.
  assert (Hsame : Library.get videoId
                    (Library.logged (Library.idb_get videoId)
                       (Library.logged Library.idb_open s)) = Some video) by exact Hget.
  unfold Library.playVideo, Library.downloadVideo. cbv zeta. rewrite Hsame.
  simpl. repeat split.
Qed.

(** ** Recording library: listing and the thumbnail backfill *)

(** X19.  When every stored entry has a thumbnail that is not the empty
    string, [loadSavedVideos] shows the stored list as it is and touches
    neither store: no database request is made and the key-value store is
    not written.  With the key absent the list shown is empty. *)
Theorem loadSavedVideos_without_backfill env (s : Library.State) :
  (forall v, In v (Library.getItem s) -> Library.needsThumbnail v = false) ->
  Library.loadSavedVideos generateThumbnail env s
    = Library.setRecordedVideos (Library.getItem s) s /\
  Library.storageLog (Library.loadSavedVideos generateThumbnail env s)
    = Library.storageLog s /\
  (Library.savedVideos s = None -> Library.list_videos generateThumbnail env s = []).
Proof.
  intros Hall.
  assert (Hnone : List.filter Library.needsThumbnail (Library.getItem s) = []).
  { induction (Library.getItem s) as [|v l IH]; [reflexivity|].
    simpl. rewrite (Hall v) by now left. apply IH. intros w Hw. apply Hall. now right. }
  assert (Hload : Library.loadSavedVideos generateThumbnail env s
                  = Library.setRecordedVideos (Library.getItem s) s).
  { unfold Library.loadSavedVideos. cbv zeta. rewrite Hnone. reflexivity. }
  split; [exact Hload|]. split.
  - rewrite Hload. reflexivity.
  - intros Habsent. unfold Library.list_videos. rewrite Hload.
    unfold Library.getItem. now rewrite Habsent.
Qed.

Lemma attachThumbnail_other videoId thumbnail (l : list RecordedVideo.t) x :
  In x l -> RecordedVideo.id x <> videoId -> In x (Library.attachThumbnail videoId thumbnail l).
Proof.
  intros Hin Hid. induction l as [|v l IH]; [destruct Hin|].
  simpl. destruct (bool_decide (RecordedVideo.id v = videoId)) eqn:Hv.
  - apply bool_decide_eq_true_1 in Hv. destruct Hin as [<- | Hin]; [congruence | now right].
  - destruct Hin as [<- | Hin]; [now left | right; now apply IH].
Qed.

Lemma attachThumbnail_sets videoId thumbnail (l : list RecordedVideo.t) :
  In videoId (List.map RecordedVideo.id l) ->
  exists v, In v (Library.attachThumbnail videoId thumbnail l) /\
            RecordedVideo.id v = videoId /\ RecordedVideo.thumbnail v = Some thumbnail.
Proof.
  induction l as [|v l IH]; intros Hin; [destruct Hin|].
  simpl. destruct (bool_decide (RecordedVideo.id v = videoId)) eqn:Hv.
  - apply bool_decide_eq_true_1 in Hv. eexists. split; [now left|]. simpl. auto.
  - apply bool_decide_eq_false_1 in Hv. destruct Hin as [Habs | Hin]; [congruence|].
    destruct (IH Hin) as (v' & Hin' & Hid & Hth). exists v'. split; [now right | auto].
Qed.

(** One backfill handler keeps the ids of the shared array and the object
    store, and the entries of other ids. *)
Lemma backfill_step env (acc : list RecordedVideo.t * Library.State) v :
  let acc' := Library.backfill_request_onsuccess generateThumbnail env acc v in
  List.map RecordedVideo.id (fst acc') = List.map RecordedVideo.id (fst acc) /\
  Library.videos (snd acc') = Library.videos (snd acc) /\
  (forall x, In x (fst acc) -> RecordedVideo.id x <> RecordedVideo.id v -> In x (fst acc')).
Proof.
  unfold Library.backfill_request_onsuccess, Library.backfill_get_onsuccess. cbv zeta.
  destruct (Library.backfill_open (env (RecordedVideo.id v))); [|auto|auto|auto].
  destruct (Library.backfill_get (env (RecordedVideo.id v))); [|simpl; auto].
  destruct (Library.get _ _) as [videoRecord|]; [|simpl; auto].
  destruct (generateThumbnail (VideoRecord.data videoRecord)); simpl; auto.
  split; [apply attachThumbnail_ids|]. split; [reflexivity|].
  intros x Hin Hid. now apply attachThumbnail_other.
Qed.

Lemma backfill_steps env (l : list RecordedVideo.t) (acc : list RecordedVideo.t * Library.State) :
  let acc' := fold_left (Library.backfill_request_onsuccess generateThumbnail env) l acc in
  List.map RecordedVideo.id (fst acc') = List.map RecordedVideo.id (fst acc) /\
  Library.videos (snd acc') = Library.videos (snd acc) /\
  (forall x, In x (fst acc) -> ~ In (RecordedVideo.id x) (List.map RecordedVideo.id l) ->
             In x (fst acc')).
Proof.
  revert acc. induction l as [|v l IH]; intros acc; cbv zeta; [simpl; auto|].
  simpl fold_left.
  destruct (backfill_step env acc v) as (S1 & S2 & S3).
  destruct (IH (Library.backfill_request_onsuccess generateThumbnail env acc v))
    as (I1 & I2 & I3).
  split; [congruence|]. split; [congruence|].
  intros x Hin Hid. apply I3.
  - apply S3; [exact Hin|]. intros Heq. apply Hid. left. now symmetry.
  - intros Hl. apply Hid. now right.
Qed.

Lemma backfill_step_sets env (acc : list RecordedVideo.t * Library.State) v videoRecord thumbnail :
  Library.backfill_open (env (RecordedVideo.id v)) = Library.open_success ->
  Library.backfill_get (env (RecordedVideo.id v)) = Library.request_success ->
  Library.videos (snd acc) !! RecordedVideo.id v = Some videoRecord ->
  generateThumbnail (VideoRecord.data videoRecord) = Resolved thumbnail ->
  In (RecordedVideo.id v) (List.map RecordedVideo.id (fst acc)) ->
  exists v', In v' (fst (Library.backfill_request_onsuccess generateThumbnail env acc v)) /\
             RecordedVideo.id v' = RecordedVideo.id v /\
             RecordedVideo.thumbnail v' = Some thumbnail.
Proof.
  intros Hopen Hget Hrecord Hthumb Hin.
  unfold Library.backfill_request_onsuccess, Library.backfill_get_onsuccess, Library.get.
  cbv zeta. rewrite Hopen, Hget. simpl. rewrite Hrecord, Hthumb. simpl.
  now apply attachThumbnail_sets.
Qed.

Lemma NoDup_map_filter {A B} (f : A -> B) (p : A -> bool) (l : list A) :
  List.NoDup (List.map f l) -> List.NoDup (List.map f (List.filter p l)).
Proof.
  induction l as [|a l IH]; intros Hnd; [exact Hnd|].
  simpl in Hnd. apply List.NoDup_cons_iff in Hnd as (Hnotin & Hnd).
  simpl. destruct (p a); [|now apply IH].
  simpl. apply List.NoDup_cons_iff. split; [|now apply IH].
  intros Hin. apply Hnotin. apply in_map_iff in Hin as (x & Hx & Hin).
  apply filter_In in Hin as (Hin & _). apply in_map_iff. eauto.
Qed.

Lemma NoDup_map_injective {A B} (f : A -> B) (l : list A) x y :
  List.NoDup (List.map f l) -> In x l -> In y l -> f x = f y -> x = y.
Proof.
  induction l as [|a l IH]; intros Hnd Hx Hy Heq; [destruct Hx|].
  simpl in Hnd. apply List.NoDup_cons_iff in Hnd as (Hnotin & Hnd).
  destruct Hx as [<- | Hx], Hy as [<- | Hy]; auto.
  - exfalso. apply Hnotin. rewrite Heq. now apply in_map.
  - exfalso. apply Hnotin. rewrite <- Heq. now apply in_map.
Qed.

(** X20.  With distinct ids in the stored list, the thumbnail backfill of
    [loadSavedVideos] changes nothing but missing thumbnails.  An entry that
    has a thumbnail is shown as it is.  An entry without one, whose record
    the object store returns and whose payload yields a thumbnail, is shown
    with that thumbnail, no matter how the backfill of the other entries
    goes.  What is shown at the end is also what the key-value store
    holds. *)
Theorem loadSavedVideos_backfill env (s : Library.State) :
  List.NoDup (List.map RecordedVideo.id (Library.getItem s)) ->
  let shown := Library.list_videos generateThumbnail env s in
  (forall v, In v (Library.getItem s) -> Library.needsThumbnail v = false -> In v shown) /\
  (forall v videoRecord thumbnail,
     In v (Library.getItem s) -> Library.needsThumbnail v = true ->
     Library.backfill_open (env (RecordedVideo.id v)) = Library.open_success ->
     Library.backfill_get (env (RecordedVideo.id v)) = Library.request_success ->
     Library.get (RecordedVideo.id v) s = Some videoRecord ->
     generateThumbnail (VideoRecord.data videoRecord) = Resolved thumbnail ->
     exists v', In v' shown /\
                RecordedVideo.id v' = RecordedVideo.id v /\
                RecordedVideo.name v' = RecordedVideo.name v /\
                RecordedVideo.thumbnail v' = Some thumbnail) /\
  Library.getItem (Library.loadSavedVideos generateThumbnail env s) = shown.
Proof.
  intros Hnd shown.
  pose proof (loadSavedVideos_list generateThumbnail env s) as (Hsame & _ & _).
  pose proof (loadSavedVideos_core env s) as Hcore. fold shown in Hcore.
  subst shown. unfold Library.list_videos in *. unfold Library.loadSavedVideos in *.
  cbv zeta in *.
  set (l := List.filter Library.needsThumbnail (Library.getItem s)) in *.
  destruct (backfill_open_requests_stores env l s) as (_ & _ & Hvideos).
  set (s0 := Library.setRecordedVideos (Library.getItem s)
               (fold_left (Library.backfill_open_request env) l s)) in *.
  assert (Hvideos0 : Library.videos s0 = Library.videos s) by exact Hvideos.
  destruct (backfill_handlers_invariant generateThumbnail env l (Library.getItem s) s0)
    as (_ & Hmem & _).
  { unfold Library.getItem. subst s0. simpl.
    destruct (backfill_open_requests_stores env l s) as (-> & _). reflexivity. }
  { reflexivity. }
  rewrite Hmem in *.
  split; [|split; [|exact Hsame]].
  - intros v Hin Hhas.
    apply (proj2 (proj2 (backfill_steps env l (Library.getItem s, s0)))); [exact Hin|].
    intros Hl. apply in_map_iff in Hl as (w & Hid & Hw).
    subst l. apply filter_In in Hw as (Hw & Hneeds).
    assert (w = v) by (apply (NoDup_map_injective RecordedVideo.id (Library.getItem s)); auto).
    congruence.
  - intros v videoRecord thumbnail Hin Hneeds Hopen Hget Hrecord Hthumb.
    assert (Hl : In v l) by (subst l; apply filter_In; auto).
    destruct (in_split v l Hl) as (l1 & l2 & Hsplit).
    assert (Hndl : List.NoDup (List.map RecordedVideo.id l))
      by (subst l; now apply NoDup_map_filter).
    rewrite Hsplit, List.map_app in Hndl. simpl in Hndl.
    apply List.NoDup_remove_2 in Hndl.
    rewrite Hsplit, fold_left_app. simpl fold_left.
    set (acc1 := fold_left (Library.backfill_request_onsuccess generateThumbnail env) l1
                   (Library.getItem s, s0)).
    destruct (backfill_steps env l1 (Library.getItem s, s0)) as (Hids1 & Hvideos1 & _).
    fold acc1 in Hids1, Hvideos1. cbn [fst snd] in Hids1, Hvideos1.
    destruct (backfill_step_sets env acc1 v videoRecord thumbnail Hopen Hget)
      as (v' & Hin' & Hid' & Hth').
    { rewrite Hvideos1, Hvideos0. exact Hrecord. }
    { exact Hthumb. }
    { rewrite Hids1. now apply in_map. }
    exists v'.
    assert (Hshown : In v' (fst (fold_left
                (Library.backfill_request_onsuccess generateThumbnail env) l2
                (Library.backfill_request_onsuccess generateThumbnail env acc1 v)))).
    { apply (proj2 (proj2 (backfill_steps env l2 _))); [exact Hin'|].
      rewrite Hid'. intros Habs. apply Hndl. apply in_or_app. now right. }
    split; [exact Hshown|]. split; [exact Hid'|]. split; [|exact Hth'].
    rewrite Hsplit, fold_left_app in Hcore. simpl fold_left in Hcore. fold acc1 in Hcore.
    apply (in_map (fun v => (RecordedVideo.id v, RecordedVideo.name v,
                             RecordedVideo.timestamp v, RecordedVideo.duration v,
                             RecordedVideo.size v))) in Hshown.
    rewrite Hcore in Hshown. apply in_map_iff in Hshown as (w & Hw & Hinw).
    injection Hw as Hwid Hwname _ _ _.
    assert (w = v).
    { apply (NoDup_map_injective RecordedVideo.id (Library.getItem s)); auto. congruence. }
    congruence.
Qed.

Lemma downloadOne_step env (s : Library.State) v :
  let s' := Library.downloadOne env s v in
  Library.videos s' = Library.videos s /\
  Library.recordedVideos s' = Library.recordedVideos s /\
  Library.savedVideos s' = Library.savedVideos s /\
  Library.downloads s' = Library.downloads s ++ Library.exported env s v.
Proof.
  unfold Library.downloadOne, Library.downloadVideo, Library.download_get_onsuccess,
    Library.exported.
  destruct (Library.download_open (env (RecordedVideo.id v))),
    (Library.download_get (env (RecordedVideo.id v))); cbv zeta;
    try (change (Library.get (RecordedVideo.id v)
                   (Library.logged (Library.idb_get (RecordedVideo.id v))
                      (Library.logged Library.idb_open s)))
           with (Library.get (RecordedVideo.id v) s);
         destruct (Library.get (RecordedVideo.id v) s));
    simpl; rewrite ?app_nil_r; repeat split.
Qed.

Lemma downloadOne_all env (l : list RecordedVideo.t) (s : Library.State) :
  let s' := fold_left (Library.downloadOne env) l s in
  Library.videos s' = Library.videos s /\
  Library.recordedVideos s' = Library.recordedVideos s /\
  Library.savedVideos s' = Library.savedVideos s /\
  Library.downloads s' = Library.downloads s ++ flat_map (Library.exported env s) l.
Proof.
  revert s. induction l as [|v l IH]; intros s; cbv zeta.
  - simpl. now rewrite app_nil_r.
  - simpl fold_left. destruct (IH (Library.downloadOne env s v)) as (I1 & I2 & I3 & I4).
    destruct (downloadOne_step env s v) as (S1 & S2 & S3 & S4).
    rewrite I1, I2, I3, I4, S1, S2, S3, S4.
    repeat split. simpl flat_map. rewrite <- app_assoc. do 2 f_equal.
    apply flat_map_ext. intros w. unfold Library.exported, Library.get. now rewrite S1.
Qed.

(** X21.  [downloadAllVideos] does nothing on an empty list.  Otherwise it
    goes through the list in order and hands the browser one file for each
    entry whose record the object store returns, and none for the others;
    and it ends announcing "Successfully downloaded N videos!" with N the
    length of the list in every case, also when no file at all was handed
    over.  It changes neither store nor list. *)
Theorem downloadAllVideos_announces_success env (s : Library.State) :
  let s' := Library.downloadAllVideos env s in
  (Library.recordedVideos s = [] -> s' = s) /\
  Library.downloads s'
    = Library.downloads s ++ flat_map (Library.exported env s) (Library.recordedVideos s) /\
  (Library.recordedVideos s <> [] ->
     Library.successMessage s'
       = Some (str "Successfully downloaded "
                 ++ decimal (Z.of_nat (length (Library.recordedVideos s)))
                 ++ str " videos!")) /\
  ((forall v, In v (Library.recordedVideos s) -> Library.get (RecordedVideo.id v) s = None) ->
     Library.downloads s' = Library.downloads s) /\
  Library.videos s' = Library.videos s /\
  Library.recordedVideos s' = Library.recordedVideos s /\
  Library.savedVideos s' = Library.savedVideos s.
Proof.
  intros s'.
  assert (Hdl : Library.downloads s'
    = Library.downloads s ++ flat_map (Library.exported env s) (Library.recordedVideos s) /\
    Library.videos s' = Library.videos s /\
    Library.recordedVideos s' = Library.recordedVideos s /\
    Library.savedVideos s' = Library.savedVideos s).
  { subst s'. unfold Library.downloadAllVideos.
    destruct (Library.recordedVideos s) as [|v l] eqn:Hl.
    - simpl. rewrite app_nil_r, ?Hl. auto.
    - cbv zeta. set (s1 := Library.setSuccessMessage _ s).
      destruct (downloadOne_all env (v :: l) s1) as (D1 & D2 & D3 & D4).
      cbn [Library.setSuccessMessage Library.downloads Library.videos
           Library.recordedVideos Library.savedVideos].
      rewrite D1, D2, D3, D4. subst s1.
      cbn [Library.setSuccessMessage Library.downloads Library.videos
           Library.recordedVideos Library.savedVideos].
      rewrite ?Hl. repeat split. }
  destruct Hdl as (Hd & Hv & Hr & Hs).
  split; [|split; [exact Hd|split; [|split; [|auto]]]].
  - intros Hnil. subst s'. unfold Library.downloadAllVideos. now rewrite Hnil.
  - intros Hne. subst s'. unfold Library.downloadAllVideos.
    destruct (Library.recordedVideos s) as [|v l]; [congruence | reflexivity].
  - intros Hmissing. rewrite Hd.
    assert (Hnone : flat_map (Library.exported env s) (Library.recordedVideos s) = []).
    { revert Hmissing. generalize (Library.recordedVideos s) as l.
      induction l as [|v l IH]; intros Hmissing; [reflexivity|].
      simpl. rewrite IH by (intros w Hw; apply Hmissing; now right).
      unfold Library.exported. rewrite (Hmissing v) by now left.
      destruct (Library.download_open (env (RecordedVideo.id v))),
        (Library.download_get (env (RecordedVideo.id v))); reflexivity. }
    rewrite Hnone. apply app_nil_r.
Qed.

End LibraryMore.

Lemma saveRecording_then_list_witness :
  Library.recordedChunksRef firstRecording <> [] /\
  thumbnailer (new_Blob (Library.recordedChunksRef firstRecording) "video/webm")
    = Resolved (str "data:image/jpeg;base64,AA") /\
  Library.get (str "video_" ++ decimal (Library.now_called allGoesWell)) firstRecording = None /\
  Library.savedVideos oneSaved = Some (Library.recordedVideos oneSaved).
Proof.
  assert (Hchunks : Library.recordedChunksRef firstRecording <> []) by discriminate.
  split; [exact Hchunks|]. split; [reflexivity|]. split; [reflexivity|].
  apply (saveRecording_then_list thumbnailer allGoesWell 5 firstRecording
           (str "data:image/jpeg;base64,AA") Hchunks eq_refl eq_refl eq_refl eq_refl).
Defined.

(** The chunk buffer is not emptied by a save: saving the same buffer again
    at the same clock value finds the id taken and changes nothing. *)
Lemma saveRecording_lost_silently_witness :
  is_Some (Library.get (str "video_" ++ decimal (Library.now_called allGoesWell)) oneSaved) /\
  Library.recordedVideos (Library.saveRecording thumbnailer allGoesWell 9 oneSaved)
    = Library.recordedVideos oneSaved /\
  Library.error (Library.saveRecording thumbnailer allGoesWell 9 oneSaved)
    = Library.error oneSaved.
Proof.
  assert (Htaken : is_Some (Library.get (str "video_" ++ decimal (Library.now_called allGoesWell))
                              oneSaved)) by (vm_compute; eauto).
  split; [exact Htaken|].
  destruct (proj2 (saveRecording_lost_silently thumbnailer allGoesWell 9 oneSaved))
    as (He & _ & _ & _ & Hl).
  - right. split; [eexists; reflexivity|]. right. split; [reflexivity|]. right. exact Htaken.
  - split; [exact Hl | exact He].
Defined.

Lemma play_and_download_found_witness :
  is_Some (Library.get (str "video_1700000000000") oneSaved) /\
  Library.selectedVideo
    (Library.playVideo Library.open_success Library.request_success
       (str "video_1700000000000") oneSaved) = Some clip.
Proof.
  split; [vm_compute; eauto|].
  apply (play_and_download_found (str "video_1700000000000") (str "clip") oneSaved
           {| VideoRecord.id := str "video_1700000000000";
              VideoRecord.name := str "Recording_11/14/2023, 10:13:20 PM";
              VideoRecord.timestamp := 1700000000100;
              VideoRecord.duration := 5;
              VideoRecord.size := 4;
              VideoRecord.data := clip |}).
  vm_compute. reflexivity.
Defined.

Lemma loadSavedVideos_without_backfill_witness :
  (forall v, In v (Library.getItem oneSaved) -> Library.needsThumbnail v = false) /\
  Library.storageLog (Library.loadSavedVideos thumbnailer everythingAnswers oneSaved)
    = Library.storageLog oneSaved.
Proof.
  assert (Hall : forall v, In v (Library.getItem oneSaved) -> Library.needsThumbnail v = false).
  { intros v [<- | []]. reflexivity. }
  split; [exact Hall|].
  apply (loadSavedVideos_without_backfill thumbnailer everythingAnswers oneSaved Hall).
Defined.

Lemma loadSavedVideos_backfill_witness :
  List.NoDup (List.map RecordedVideo.id (Library.getItem legacyLibrary)) /\
  Library.getItem (Library.loadSavedVideos thumbnailer everythingAnswers legacyLibrary)
    = Library.list_videos thumbnailer everythingAnswers legacyLibrary /\
  List.map RecordedVideo.thumbnail
    (Library.list_videos thumbnailer everythingAnswers legacyLibrary)
    = [Some (str "data:image/jpeg;base64,AA")].
Proof.
  assert (Hnd : List.NoDup (List.map RecordedVideo.id (Library.getItem legacyLibrary))).
  { simpl. apply List.NoDup_cons; [intros [] | apply List.NoDup_nil]. }
  split; [exact Hnd|]. split.
  - apply (loadSavedVideos_backfill thumbnailer everythingAnswers legacyLibrary Hnd).
  - vm_compute. reflexivity.
Defined.

(** With the record missing, "download all" hands over nothing and yet
    announces success. *)
Lemma downloadAllVideos_announces_success_witness :
  Library.downloads (Library.downloadAllVideos everyDownloadAnswers orphanedEntry) = [] /\
  Library.successMessage (Library.downloadAllVideos everyDownloadAnswers orphanedEntry)
    = Some (str "Successfully downloaded 1 videos!").
Proof.
  destruct (downloadAllVideos_announces_success everyDownloadAnswers orphanedEntry)
    as (_ & _ & Hmsg & Hnone & _).
  split.
  - apply Hnone. intros v [<- | []]. reflexivity.
  - apply Hmsg. discriminate.
Defined.

(** ** The duration label *)

Lemma padStart_seconds (n : nat) :
  (n < 60)%nat ->
  padStart 2 48 (decimal (Z.of_nat n))
  = [ (48 + N.of_nat n / 10)%N; (48 + N.of_nat n mod 10)%N ].
Proof.
  intros Hn. do 60 (destruct n as [|n]; [reflexivity|]). lia.
Qed.

(** X22.  For a duration of zero or more whole seconds below 2^53,
    [formatDuration] yields the minutes in decimal, a colon, and the seconds
    beyond the last full minute in exactly two digits, padded with a zero
    below ten. *)
Theorem formatDuration_minutes_seconds (seconds : Z) :
  0 <= seconds < 2 ^ 53 ->
  formatDuration seconds
  = Some (decimal (seconds / 60) ++
          [ 58%N; (48 + Z.to_N (seconds mod 60) / 10)%N;
            (48 + Z.to_N (seconds mod 60) mod 10)%N ]) /\
  0 <= seconds mod 60 < 60 /\
  seconds = 60 * (seconds / 60) + seconds mod 60.
Proof.
  intros Hrange.
  assert (Hr : 0 <= seconds mod 60 < 60) by (apply Z.mod_pos_bound; lia).
  split; [|split; [exact Hr | apply Z.div_mod; lia]].
  unfold formatDuration.
  replace (Z.abs seconds <? 2 ^ 53) with true by (symmetry; apply Z.ltb_lt; lia).
  cbv zeta. rewrite Z.rem_mod_nonneg by lia.
  replace (seconds mod 60) with (Z.of_nat (Z.to_nat (seconds mod 60))) at 1
    by (apply Z2Nat.id; lia).
  rewrite padStart_seconds by lia.
  rewrite Z_nat_N. reflexivity.
Qed.

Lemma formatDuration_minutes_seconds_witness :
  0 <= 65 < 2 ^ 53 /\ formatDuration 65 = Some (str "1:05").
Proof.
  assert (Hrange : 0 <= 65 < 2 ^ 53) by lia.
  split; [exact Hrange|].
  apply (proj1 (formatDuration_minutes_seconds 65 Hrange)).
Defined.
